(** * S3 pipeline storage and S3 text input of graphrag: a shallow embedding

    The development follows two source files:
    - [graphrag/index/storage/s3_pipeline_storage.py]: class
      [S3PipelineStorage] (find, get, set, has, delete, clear, child) and
      [_create_progress_status];
    - [graphrag/index/input/s3_text.py]: [load].

    Python strings are [string], bytes are lists of [Byte.byte], dictionaries whose
    iteration order matters are association lists, and the S3 bucket behind
    the boto3 client is a finite map from (bucket, key) to object bodies.
    Effects (service calls, logging, exceptions) are threaded through a small
    state-and-exception monad. *)

From Stdlib Require Import ZArith Ascii DecimalString.
From stdpp Require Import gmap strings list.

Local Open Scope stdpp_scope.

(** ** Python string primitives used by the source *)

Module PyStr.

(** [s.startswith(p)] *)
Fixpoint startswith (p s : string) : bool :=
  match p, s with
  | EmptyString, _ => true
  | String _ _, EmptyString => false
  | String a p', String b s' => if Ascii.eqb a b then startswith p' s' else false
  end.

(** [s.endswith(p)], through the reversed strings *)
Definition endswith (p s : string) : bool :=
  startswith (String.rev p) (String.rev s).

(** [s[n:]] *)
Fixpoint drop (n : nat) (s : string) : string :=
  match n, s with
  | O, _ => s
  | S _, EmptyString => EmptyString
  | S n', String _ s' => drop n' s'
  end.

(** [s.count(sub)]: the number of non-overlapping occurrences of [sub],
    scanning from the left.  [skip] is the number of characters of the
    occurrence just counted that are still to be stepped over.  For the
    empty [sub] Python counts one occurrence before every character and one
    at the end, [len(s) + 1]. *)
Fixpoint count_from (skip : nat) (sub s : string) : nat :=
  match s with
  | EmptyString =>
      match skip, sub with
      | O, EmptyString => 1
      | _, _ => 0
      end
  | String _ s' =>
      match skip with
      | S k => count_from k sub s'
      | O =>
          if startswith sub s
          then S (count_from (String.length sub - 1) sub s')
          else count_from 0 sub s'
      end
  end.

Definition count (s sub : string) : nat := count_from 0 sub s.

(** [s.replace(old, new, 1)]: the leftmost occurrence only *)
Fixpoint replace1 (s old new : string) : string :=
  if startswith old s then new +:+ drop (String.length old) s
  else match s with
       | EmptyString => EmptyString
       | String c s' => String c (replace1 s' old new)
       end.

(** truthiness of a [str] and of a [str | None] *)
Definition truthy (s : string) : bool :=
  match s with EmptyString => false | _ => true end.

Definition truthy_opt (o : option string) : bool :=
  match o with Some s => truthy s | None => false end.

(** [o or d] for [o : str | None] *)
Definition or_else (o : option string) (d : string) : string :=
  match o with
  | Some s => if truthy s then s else d
  | None => d
  end.

(** [str(n)] for a non-negative integer *)
Definition of_nat (n : nat) : string :=
  NilZero.string_of_uint (Nat.to_uint n).

(** [Path(key).name] for a key whose last component is an ordinary file
    name: the text after the last slash. *)
Fixpoint basename_from (acc s : string) : string :=
  match s with
  | EmptyString => acc
  | String c s' =>
      if Ascii.eqb c "/"%char then basename_from EmptyString s'
      else basename_from (acc +:+ String c EmptyString) s'
  end.

Definition basename (s : string) : string := basename_from EmptyString s.

End PyStr.

(** ** Exceptions, the S3 service and the effect monad *)

(** Python [bytes] *)
Abbreviation bytes := (list Byte.byte).

(** The exceptions the two modules can raise.  A botocore [ClientError]
    carries the operation name and the [Error] entry of the response
    ([Code] and [Message]); an [AttributeError] carries the class of the
    object and the name of the attribute it lacks. *)
Inductive exn : Type :=
  | ClientError (operation code message : string)
  | KeyError (key : string)
  | TypeError
  | ValueError (msg : string)
  | UnicodeError
  | AttributeError (class_name attribute : string).

Inductive result (A : Type) : Type :=
  | Ok (a : A)
  | Raise (e : exn).
Arguments Ok {A} a.
Arguments Raise {A} e.

(** Requests sent to the service by the boto3 client. *)
Inductive Call : Type :=
  | GetObject (Bucket Key : string)
  | PutObject (Bucket Key : string) (Body : bytes)
  | HeadObject (Bucket Key : string)
  | DeleteObject (Bucket Key : string).

Inductive Level : Type := ERROR | WARNING | INFO.

(** The world outside the Python process: the objects held by the service,
    the requests the service rejects ([fault bucket key] is the error code
    and message of the rejection, e.g. AccessDenied), the requests received
    so far, the records written to the [logging] logger and the messages
    handed to a progress reporter.  Newest entries of [calls], [log] and
    [reported] come last. *)
Record World : Type := {
  objects : gmap (string * string) bytes;
  fault : string -> string -> option (string * string);
  calls : list Call;
  log : list (Level * string);
  reported : list string
}.

Definition M (A : Type) : Type := World -> result A * World.

Definition ret {A} (a : A) : M A := fun w => (Ok a, w).

Definition raise {A} (e : exn) : M A := fun w => (Raise e, w).

Definition bind {A B} (c : M A) (k : A -> M B) : M B :=
  fun w =>
    match c w with
    | (Ok a, w') => k a w'
    | (Raise e, w') => (Raise e, w')
    end.

Declare Scope py_scope.
Delimit Scope py_scope with py.
Notation "x <- c ;; k" := (bind c (fun x => k))
  (at level 100, c at next level, right associativity) : py_scope.
Notation "c ;;; k" := (bind c (fun _ => k))
  (at level 100, right associativity) : py_scope.

(** [try: body  except ClientError as e: handler(e)]; every other exception
    passes through. *)
Definition try_except_ClientError {A} (body : M A)
    (handler : string -> string -> string -> M A) : M A :=
  fun w =>
    match body w with
    | (Raise (ClientError op code msg), w') => handler op code msg w'
    | r => r
    end.

(** [try: body  except Exception: handler] *)
Definition try_except_Exception {A} (body : M A) (handler : M A) : M A :=
  fun w =>
    match body w with
    | (Raise _, w') => handler w'
    | r => r
    end.

Definition logging (lvl : Level) (msg : string) : M unit :=
  fun w => (Ok tt, {| objects := objects w; fault := fault w;
                      calls := calls w; log := log w ++ [(lvl, msg)];
                      reported := reported w |}).

Definition report_progress (msg : string) : M unit :=
  fun w => (Ok tt, {| objects := objects w; fault := fault w;
                      calls := calls w; log := log w;
                      reported := reported w ++ [msg] |}).

Definition record_call (c : Call) (w : World) : World :=
  {| objects := objects w; fault := fault w;
     calls := calls w ++ [c]; log := log w; reported := reported w |}.

(** The four client operations the storage class uses.  A rejected request
    raises [ClientError] with the service's code and message; a missing
    object is reported as NoSuchKey by GetObject and as 404 by HeadObject;
    DeleteObject of a missing object succeeds. *)
Module s3.

Definition get_object (Bucket Key : string) : M bytes :=
  fun w =>
    let w' := record_call (GetObject Bucket Key) w in
    match fault w Bucket Key with
    | Some (code, msg) => (Raise (ClientError "GetObject" code msg), w')
    | None =>
        match objects w !! (Bucket, Key) with
        | Some body => (Ok body, w')
        | None =>
            (Raise (ClientError "GetObject" "NoSuchKey"
                      "The specified key does not exist."), w')
        end
    end.

Definition put_object (Bucket Key : string) (Body : bytes) : M unit :=
  fun w =>
    let w' := record_call (PutObject Bucket Key Body) w in
    match fault w Bucket Key with
    | Some (code, msg) => (Raise (ClientError "PutObject" code msg), w')
    | None =>
        (Ok tt, {| objects := <[(Bucket, Key) := Body]> (objects w');
                   fault := fault w'; calls := calls w'; log := log w';
                   reported := reported w' |})
    end.

Definition head_object (Bucket Key : string) : M unit :=
  fun w =>
    let w' := record_call (HeadObject Bucket Key) w in
    match fault w Bucket Key with
    | Some (code, msg) => (Raise (ClientError "HeadObject" code msg), w')
    | None =>
        match objects w !! (Bucket, Key) with
        | Some _ => (Ok tt, w')
        | None => (Raise (ClientError "HeadObject" "404" "Not Found"), w')
        end
    end.

Definition delete_object (Bucket Key : string) : M unit :=
  fun w =>
    let w' := record_call (DeleteObject Bucket Key) w in
    match fault w Bucket Key with
    | Some (code, msg) => (Raise (ClientError "DeleteObject" code msg), w')
    | None =>
        (Ok tt, {| objects := delete (Bucket, Key) (objects w');
                   fault := fault w'; calls := calls w'; log := log w';
                   reported := reported w' |})
    end.

End s3.

(** Text codecs, [str.encode(name)] and [bytes.decode(name)]; [None] stands
    for the UnicodeError (or LookupError) Python raises. *)
Class Codecs : Type := {
  str_encode : string -> string -> option bytes;
  bytes_decode : string -> bytes -> option string
}.

(** A codec table is lossless when decoding undoes encoding, as the text
    codecs of the Python standard library do. *)
Definition lossless (C : Codecs) : Prop :=
  forall enc s b, str_encode enc s = Some b -> bytes_decode enc b = Some s.

(** Regular expressions.  A compiled pattern is what [pattern.match(key)]
    followed by [groupdict()] computes: [None] when the key does not match,
    otherwise the named groups in pattern order, a group that took no part
    in the match bound to [None].  [re_compile p] is the compiled pattern of
    the source [p], and [re_match p s] is the truth value of
    [re.match(p, s)]. *)
Definition groupdict : Type := list (string * option string).
Definition Pattern : Type := string -> option groupdict.

Class Regex : Type := {
  re_compile : string -> Pattern;
  re_match : string -> string -> bool
}.

(** [d[k]] on an association list: [None] is the KeyError. *)
Fixpoint dict_get {V} (d : list (string * V)) (k : string) : option V :=
  match d with
  | [] => None
  | (k', v) :: d' => if String.eqb k' k then Some v else dict_get d' k
  end.

(** [d[k] = v]: an existing key keeps its position. *)
Fixpoint dict_set {V} (d : list (string * V)) (k : string) (v : V)
    : list (string * V) :=
  match d with
  | [] => [(k, v)]
  | (k', v') :: d' =>
      if String.eqb k' k then (k', v) :: d' else (k', v') :: dict_set d' k v
  end.

(** [str(e)] of a botocore [ClientError]; other exceptions print their
    argument. *)
Definition str_exn (e : exn) : string :=
  match e with
  | ClientError op code msg =>
      "An error occurred (" +:+ code +:+ ") when calling the " +:+ op
        +:+ " operation: " +:+ msg
  | KeyError k => "'" +:+ k +:+ "'"
  | TypeError => "expected string or bytes-like object"
  | ValueError msg => msg
  | UnicodeError => "codec can't convert"
  | AttributeError class_name attribute =>
      "'" +:+ class_name +:+ "' object has no attribute '" +:+ attribute
        +:+ "'"
  end.

(** Python objects as far as attribute access sees them: [None], a string,
    or an instance of a class with its data attributes. *)
#[warnings="-register-all"] Inductive PyObject : Type :=
  | PyNone
  | PyString (s : string)
  | PyInstance (class_name : string) (attributes : list (string * PyObject)).

Definition class_of (o : PyObject) : string :=
  match o with
  | PyNone => "NoneType"
  | PyString _ => "str"
  | PyInstance class_name _ => class_name
  end.

(** [o.name] *)
Definition getattr (o : PyObject) (name : string) : result PyObject :=
  match o with
  | PyInstance class_name attributes =>
      match dict_get attributes name with
      | Some v => Ok v
      | None => Raise (AttributeError class_name name)
      end
  | _ => Raise (AttributeError (class_of o) name)
  end.

(** [o.a1.a2. ... .an], evaluated from the left; the first missing
    attribute raises. *)
Fixpoint getattrs (o : PyObject) (names : list string) : result PyObject :=
  match names with
  | [] => Ok o
  | name :: names' =>
      match getattr o name with
      | Ok o' => getattrs o' names'
      | Raise e => Raise e
      end
  end.

(** A [str | None] value as an object, and back. *)
Definition of_optional (o : option string) : PyObject :=
  match o with Some s => PyString s | None => PyNone end.

Definition to_optional (o : PyObject) : option string :=
  match o with PyString s => Some s | _ => None end.

(** Sequencing of computations that only return or raise. *)
Definition and_then {A B} (r : result A) (k : A -> result B) : result B :=
  match r with
  | Ok a => k a
  | Raise e => Raise e
  end.

(** A page of a [list_objects_v2] listing; the service leaves [Contents] out
    of an empty page. *)
Record S3Object : Type := { Key : string }.
Record Page : Type := { Contents : option (list S3Object) }.

(** [paginator.paginate(Bucket=b, Prefix=p)]: the pages in the order the
    iterator fetches them, one request each; [Raise e] is a request that
    fails, which ends the iteration. *)
Definition Paginator : Type := string -> string -> list (result Page).

(** ** graphrag/index/storage/s3_pipeline_storage.py *)

Record Progress : Type := {
  total_items : nat;
  completed_items : nat;
  description : string
}.

Definition _create_progress_status (num_loaded num_filtered num_total : nat)
    : Progress :=
  {| total_items := num_total;
     completed_items := num_loaded + num_filtered;
     description := PyStr.of_nat num_loaded +:+ " files loaded ("
                      +:+ PyStr.of_nat num_filtered +:+ " filtered)" |}.

(** The value stored or fetched: [bytes] or [str]. *)
Inductive Value : Type :=
  | VBytes (b : bytes)
  | VStr (s : string).

(** A progress reporter is an opaque observer: the embedding records each
    call made to it and nothing else. *)
Variant ProgressReporter : Type := Reporter.

(** What a consumer that drains the generator returned by [find] observes,
    in order: a page request sent to the service, a key taken from a page,
    an entry yielded, a call of the progress callback. *)
Inductive Event : Type :=
  | Fetch
  | Examine (key : string)
  | Yield (key : string) (group : groupdict)
  | Report (p : Progress).

Record Counters : Type := {
  num_loaded : nat;
  num_filtered : nat;
  num_total : nat
}.

(** How the body of the inner loop ends for one key: fall through to the
    progress call and the next key, [return], or an exception. *)
Inductive Signal : Type := Next | Stop | Throw (e : exn).

(** How the generator ends: the listing is exhausted, the [return] of the
    [max_count] test, or an exception. *)
Inductive Outcome : Type := Exhausted | Returned | Raised (e : exn).

Module S3PipelineStorage.

(** What a boto3 client was built from: the credentials and the region its
    session resolved. *)
Record Client : Type := {
  access_key : option string;
  secret_key : option string;
  region_name : option string
}.

(** The client as a Python object.  [boto3.client("s3")] returns an instance
    of the generated class S3 whose only public data attribute is [meta], a
    botocore [ClientMeta].  A [ClientMeta] offers [events], [config],
    [endpoint_url], [service_model], [method_to_api_mapping], [partition] and
    [region_name]; it has no attribute [client] (the [meta] of a boto3
    resource has one), and the credentials are not reachable from it.
    Attributes the source never reads are kept as instances without
    content. *)
Definition client_object (c : Client) : PyObject :=
  PyInstance "S3"
    [("meta",
      PyInstance "ClientMeta"
        [("events", PyInstance "HierarchicalEmitter" []);
         ("config",
          PyInstance "Config" [("region_name", of_optional (region_name c))]);
         ("endpoint_url", PyInstance "str" []);
         ("service_model", PyInstance "ServiceModel" []);
         ("method_to_api_mapping", PyInstance "dict" []);
         ("partition", PyInstance "str" []);
         ("region_name", of_optional (region_name c))])].

Record t : Type := {
  bucket_name : string;
  base_prefix : string;
  s3 : Client
}.

Section Class.

(** [boto3.client("s3")]: the client the process environment yields. *)
Variable boto3_client : Client.

Context {C : Codecs}.

(** The constructor keeps the bucket and the prefix; the client is built
    from the environment, whatever credentials are passed. *)
Definition __init__ (aws_access_key_id aws_secret_access_key : option string)
    (bucket_name : string) (base_prefix : option string)
    (region_name : option string) : t :=
  {| bucket_name := bucket_name;
     base_prefix := PyStr.or_else base_prefix "";
     s3 := boto3_client |}.

Definition get (self : t) (key : string) (as_bytes : option bool)
    (encoding : option string) : M (option Value) :=
  let full_key :=
    if PyStr.truthy (base_prefix self)
    then base_prefix self +:+ "/" +:+ key else key in
  let full_key :=
    if Nat.ltb 1 (PyStr.count full_key (base_prefix self))
    then PyStr.replace1 full_key (base_prefix self +:+ "/") ""
    else full_key in
  try_except_ClientError
    (data <- s3.get_object (bucket_name self) full_key ;;
     if default false as_bytes then ret (Some (VBytes data))
     else match bytes_decode (PyStr.or_else encoding "utf-8") data with
          | Some text => ret (Some (VStr text))
          | None => raise UnicodeError
          end)%py
    (fun op code msg =>
       logging ERROR ("Error fetching object from S3: " +:+ msg) ;;;
       if String.eqb code "NoSuchKey" then ret None
       else raise (ClientError op code msg))%py.

Definition set (self : t) (key : string) (value : Value)
    (encoding : option string) : M unit :=
  let full_key :=
    if PyStr.truthy (base_prefix self)
    then base_prefix self +:+ "/" +:+ key else key in
  match value with
  | VBytes b => s3.put_object (bucket_name self) full_key b
  | VStr text =>
      match str_encode (PyStr.or_else encoding "utf-8") text with
      | Some encoded_value =>
          s3.put_object (bucket_name self) full_key encoded_value
      | None => raise UnicodeError
      end
  end.

Definition has (self : t) (key : string) : M bool :=
  let full_key :=
    if PyStr.truthy (base_prefix self)
    then base_prefix self +:+ "/" +:+ key else key in
  try_except_ClientError
    (s3.head_object (bucket_name self) full_key ;;; ret true)%py
    (fun _ _ _ => ret false).

Definition delete (self : t) (key : string) : M unit :=
  let full_key :=
    if PyStr.truthy (base_prefix self)
    then base_prefix self +:+ "/" +:+ key else key in
  s3.delete_object (bucket_name self) full_key.

(** Instances live in a heap and are referred to by address, so that
    "the same instance" is equality of addresses. *)
Definition alloc (o : t) (heap : list t) : nat * list t :=
  (length heap, heap ++ [o]).

(** [child]: the outer [option] is [None] only for an address that holds no
    instance.  The keyword arguments of the constructor call are evaluated
    in the order they are written, each through its attribute chain on
    [self.s3], before the constructor runs. *)
Definition child (self : nat) (name : option string) (heap : list t)
    : option (result (nat * list t)) :=
  match name with
  | None => Some (Ok (self, heap))
  | Some name =>
      me ← heap !! self;
      let new_prefix :=
        if PyStr.truthy (base_prefix me)
        then base_prefix me +:+ "/" +:+ name else name in
      let self_s3 := client_object (s3 me) in
      Some
        (and_then
           (getattrs self_s3
              ["meta"; "client"; "meta"; "config"; "credentials";
               "access_key"])
           (fun aws_access_key_id =>
        and_then
           (getattrs self_s3
              ["meta"; "client"; "meta"; "config"; "credentials";
               "secret_key"])
           (fun aws_secret_access_key =>
        and_then
           (getattrs self_s3 ["meta"; "client"; "meta"; "region_name"])
           (fun region_name =>
        Ok (alloc (__init__ (to_optional aws_access_key_id)
                     (to_optional aws_secret_access_key)
                     (bucket_name me) (Some new_prefix)
                     (to_optional region_name)) heap)))))
  end.

End Class.

Section Find.

Context {R : Regex}.

(** [self.s3.get_paginator('list_objects_v2').paginate] *)
Variable paginate : Paginator.

Variable file_pattern : Pattern.
Variable progress : option ProgressReporter.
Variable file_filter : option (list (string * string)).
Variable max_count : Z.

(** [all(re.match(value, group[key]) for key, value in items)]: entries
    are tried in order and the first falsy one ends the test; [group[key]]
    raises KeyError for a name the pattern does not have, and [re.match]
    raises TypeError on the [None] of a group that took no part. *)
Fixpoint filter_all (group : groupdict) (items : list (string * string))
    : result bool :=
  match items with
  | [] => Ok true
  | (key, value) :: rest =>
      match dict_get group key with
      | None => Raise (KeyError key)
      | Some None => Raise TypeError
      | Some (Some s) =>
          if re_match value s then filter_all group rest else Ok false
      end
  end.

(** [file_filter is None or all(...)] *)
Definition filter_passes (group : groupdict) : result bool :=
  match file_filter with
  | None => Ok true
  | Some items => filter_all group items
  end.

Definition count_total (c : Counters) : Counters :=
  {| num_loaded := num_loaded c; num_filtered := num_filtered c;
     num_total := S (num_total c) |}.

Definition count_loaded (c : Counters) : Counters :=
  {| num_loaded := S (num_loaded c); num_filtered := num_filtered c;
     num_total := num_total c |}.

Definition count_filtered (c : Counters) : Counters :=
  {| num_loaded := num_loaded c; num_filtered := S (num_filtered c);
     num_total := num_total c |}.

(** The body of the inner loop up to the progress call (lines 50-63). *)
Definition examine (key : string) (c : Counters)
    : list Event * Counters * Signal :=
  let c := count_total c in
  match file_pattern key with
  | Some group =>
      match filter_passes group with
      | Raise e => ([Examine key], c, Throw e)
      | Ok true =>
          let c := count_loaded c in
          if ((0 <? max_count)%Z
              && (max_count <=? Z.of_nat (num_loaded c))%Z)%bool
          then ([Examine key; Yield key group], c, Stop)
          else ([Examine key; Yield key group], c, Next)
      | Ok false => ([Examine key], count_filtered c, Next)
      end
  | None => ([Examine key], count_filtered c, Next)
  end.

(** [if progress is not None: progress(_create_progress_status(...))] *)
Definition report (c : Counters) : list Event :=
  match progress with
  | Some _ =>
      [Report (_create_progress_status (num_loaded c) (num_filtered c)
                 (num_total c))]
  | None => []
  end.

(** The inner loop, [for obj in page.get('Contents', [])]. *)
Fixpoint find_contents (contents : list S3Object) (c : Counters)
    : list Event * Counters * Signal :=
  match contents with
  | [] => ([], c, Next)
  | obj :: rest =>
      match examine (Key obj) c with
      | (evs, c', Next) =>
          let '(tr, c'', sg) := find_contents rest c' in
          (evs ++ report c' ++ tr, c'', sg)
      | stopped => stopped
      end
  end.

(** The outer loop, [for page in paginator.paginate(...)]. *)
Fixpoint find_pages (pages : list (result Page)) (c : Counters)
    : list Event * Counters * Outcome :=
  match pages with
  | [] => ([], c, Exhausted)
  | Raise e :: _ => ([Fetch], c, Raised e)
  | Ok page :: rest =>
      match find_contents (default [] (Contents page)) c with
      | (tr, c', Next) =>
          let '(tr', c'', out) := find_pages rest c' in
          (Fetch :: tr ++ tr', c'', out)
      | (tr, c', Stop) => (Fetch :: tr, c', Returned)
      | (tr, c', Throw e) => (Fetch :: tr, c', Raised e)
      end
  end.

Definition find (self : t) (base_dir : option string)
    : list Event * Counters * Outcome :=
  let search_prefix :=
    match base_dir with
    | Some d =>
        if PyStr.truthy d then base_prefix self +:+ "/" +:+ d
        else base_prefix self
    | None => base_prefix self
    end in
  find_pages (paginate (bucket_name self) search_prefix)
    {| num_loaded := 0; num_filtered := 0; num_total := 0 |}.

End Find.

End S3PipelineStorage.

(** ** graphrag/index/input/s3_text.py *)

Module s3_text.

(** The fields of [PipelineInputConfig] that [load] reads. *)
Record PipelineInputConfig : Type := {
  bucket_name : option string;
  base_prefix : option string;
  file_pattern : option string
}.

(** A loaded row: the capture groups, then text, id and title. *)
Definition Item : Type := list (string * option string).

Definition DEFAULT_FILE_PATTERN : string :=
  ".*[\\/](?P<source>[^\\/]+)[\\/](?P<year>\d{4})-(?P<month>\d{2})-(?P<day>\d{2})_(?P<author>[^_]+)_\d+\.txt".

Section Load.

Context {C : Codecs} {R : Regex}.

(** [graphrag.index.utils.gen_md5_hash(item, hashcode)] *)
Variable gen_md5_hash : Item -> list string -> string.

(** [s3.get_paginator('list_objects_v2').paginate] *)
Variable paginate : Paginator.

Definition lift {A} (r : result A) : M A := fun w => (r, w).

Definition load_file (bucket key : string) (group : option groupdict)
    : M Item :=
  let group := default [] group in
  try_except_ClientError
    (obj <- s3.get_object bucket key ;;
     match bytes_decode "utf-8" obj with
     | None => raise UnicodeError
     | Some text =>
         let new_item := dict_set group "text" (Some text) in
         let new_item :=
           dict_set new_item "id"
             (Some (gen_md5_hash new_item (map fst new_item))) in
         let new_item :=
           dict_set new_item "title" (Some (PyStr.basename key)) in
         ret new_item
     end)%py
    (fun op code msg =>
       logging ERROR ("Error reading file " +:+ key +:+ " from S3: "
                        +:+ str_exn (ClientError op code msg)) ;;;
       raise (ClientError op code msg))%py.

(** The keys of one page that end in ".txt" and match the pattern, with
    their groups. *)
Definition page_files (pattern : Pattern) (contents : list S3Object)
    : list (string * groupdict) :=
  omap (fun obj =>
          let key := Key obj in
          if PyStr.endswith ".txt" key
          then match pattern key with
               | Some group => Some (key, group)
               | None => None
               end
          else None) contents.

(** The listing loop (lines 55-62). *)
Fixpoint list_files (pattern : Pattern) (pages : list (result Page))
    (files : list (string * groupdict))
    : result (list (string * groupdict)) :=
  match pages with
  | [] => Ok files
  | Raise e :: _ => Raise e
  | Ok page :: rest =>
      list_files pattern rest
        (files ++ page_files pattern (default [] (Contents page)))
  end.

(** The loading loop (lines 71-77). *)
Fixpoint load_files (bucket : string) (progress : option ProgressReporter)
    (files : list (string * groupdict)) (files_loaded : list Item)
    : M (list Item) :=
  match files with
  | [] => ret files_loaded
  | (file, group) :: rest =>
      (match progress with
       | Some _ => report_progress ("Loading file: " +:+ file)
       | None => ret tt
       end ;;;
       files_loaded <-
         try_except_Exception
           (item <- load_file bucket file (Some group) ;;
            ret (files_loaded ++ [item]))
           (logging WARNING ("Warning! Error loading file " +:+ file
                               +:+ " from S3. Skipping...") ;;;
            ret files_loaded) ;;
       load_files bucket progress rest files_loaded)%py
  end.

Definition load (config : PipelineInputConfig)
    (progress : option ProgressReporter) : M (list Item) :=
  if (negb (PyStr.truthy_opt (bucket_name config))
      || negb (PyStr.truthy_opt (base_prefix config)))%bool
  then raise (ValueError
                "S3 bucket name and base prefix are required for S3 input")
  else
    let bucket := default "" (bucket_name config) in
    let prefix := default "" (base_prefix config) in
    let pattern :=
      re_compile (PyStr.or_else (file_pattern config) DEFAULT_FILE_PATTERN) in
    try_except_ClientError
      (files <- lift (list_files pattern (paginate bucket prefix) []) ;;
       if Nat.eqb (length files) 0
       then raise (ValueError ("No text files found in S3 bucket "
                                 +:+ bucket +:+ " with prefix " +:+ prefix))
       else
         logging INFO ("Found " +:+ PyStr.of_nat (length files)
                         +:+ " text files in S3 bucket " +:+ bucket) ;;;
         files_loaded <- load_files bucket progress files [] ;;
         logging INFO ("Found " +:+ PyStr.of_nat (length files)
                         +:+ " files, loading "
                         +:+ PyStr.of_nat (length files_loaded)) ;;;
         ret files_loaded)%py
      (fun op code msg =>
         logging ERROR ("Error accessing S3: "
                          +:+ str_exn (ClientError op code msg)) ;;;
         raise (ClientError op code msg))%py.

End Load.

End s3_text.

(** ** Concrete interpretations used to run the code on examples *)

(** Patterns made of ordinary characters only: [re.match] is a prefix test
    and there are no named groups. *)
Definition literal_regex : Regex :=
  {| re_compile := fun p key => if PyStr.startswith p key then Some [] else None;
     re_match := PyStr.startswith |}.

Definition is_ascii (c : ascii) : bool :=
  match c with Ascii _ _ _ _ _ _ _ b7 => negb b7 end.

Fixpoint all_ascii (s : string) : bool :=
  match s with
  | EmptyString => true
  | String c s' => is_ascii c && all_ascii s'
  end.

(** The codecs on ASCII text, where utf-8, ascii and latin-1 agree: one byte
    per character.  Other input is refused. *)
Definition ascii_codecs : Codecs :=
  {| str_encode := fun _ s =>
       if all_ascii s then Some (String.list_byte_of_string s) else None;
     bytes_decode := fun _ b =>
       let s := String.string_of_list_byte b in
       if all_ascii s then Some s else None |}.

(** A service holding the given objects and rejecting nothing. *)
Definition world_of (objs : list (string * string * bytes)) : World :=
  {| objects := list_to_map objs; fault := fun _ _ => None;
     calls := []; log := []; reported := [] |}.

(** ** Vocabulary of the statements *)

(** The key resolution every operation starts with. *)
Definition full_key (base_prefix key : string) : string :=
  if PyStr.truthy base_prefix then base_prefix +:+ "/" +:+ key else key.

(** The full key with a repeated base prefix collapsed: when the base prefix
    occurs more than once, its leftmost occurrence (with the slash) is
    taken out. *)
Definition collapsed_key (base_prefix key : string) : string :=
  let fk := full_key base_prefix key in
  if Nat.ltb 1 (PyStr.count fk base_prefix)
  then PyStr.replace1 fk (base_prefix +:+ "/") ""
  else fk.

(** The [as_bytes] argument that matches the kind of a value. *)
Definition is_bytes (v : Value) : bool :=
  match v with VBytes _ => true | VStr _ => false end.

(** The body [set] uploads for a value: bytes as they are, text encoded;
    [None] when the encoding fails. *)
Definition body_of {C : Codecs} (v : Value) (encoding : option string)
    : option bytes :=
  match v with
  | VBytes b => Some b
  | VStr text => str_encode (PyStr.or_else encoding "utf-8") text
  end.

Definition log_error (msg : string) (w : World) : World :=
  {| objects := objects w; fault := fault w; calls := calls w;
     log := log w ++ [(ERROR, msg)]; reported := reported w |}.

(** A client without explicit credentials, and two storages on bucket "b". *)
Definition ambient_client : S3PipelineStorage.Client :=
  {| S3PipelineStorage.access_key := None;
     S3PipelineStorage.secret_key := None;
     S3PipelineStorage.region_name := None |}.

Definition docs_storage : S3PipelineStorage.t :=
  S3PipelineStorage.__init__ ambient_client None None "b" (Some "docs") None.

Definition root_storage : S3PipelineStorage.t :=
  S3PipelineStorage.__init__ ambient_client None None "b" None None.

(** The keys taken from the pages, the entries yielded and the progress
    calls of a trace, each in order, and the number of page requests. *)
Definition examined (tr : list Event) : list string :=
  omap (fun e => match e with Examine key => Some key | _ => None end) tr.

Definition yields (tr : list Event) : list (string * groupdict) :=
  omap (fun e => match e with Yield key group => Some (key, group) | _ => None end) tr.

Definition reports (tr : list Event) : list Progress :=
  omap (fun e => match e with Report p => Some p | _ => None end) tr.

Definition fetches (tr : list Event) : nat :=
  length (omap (fun e => match e with Fetch => Some tt | _ => None end) tr).

Section FindVocabulary.

Context {R : Regex}.
Variable file_pattern : Pattern.
Variable file_filter : option (list (string * string)).
Variable max_count : Z.

(** A key is accepted when it matches the pattern and its groups pass the
    filter. *)
Definition accepted (key : string) : bool :=
  match file_pattern key with
  | Some group =>
      match S3PipelineStorage.filter_passes file_filter group with
      | Ok true => true
      | _ => false
      end
  | None => false
  end.

(** The counts a listing prefix stands for: accepted keys are loaded, all
    others filtered. *)
Definition counts_of (keys : list string) : Counters :=
  {| num_loaded := length (List.filter accepted keys);
     num_filtered := length (List.filter (fun k => negb (accepted k)) keys);
     num_total := length keys |}.

(** What a yielded entry satisfies: its key matched with these groups and
    the groups passed the filter. *)
Definition yield_ok (entry : string * groupdict) : Prop :=
  file_pattern entry.1 = Some entry.2
  /\ S3PipelineStorage.filter_passes file_filter entry.2 = Ok true.

(** Every group named by the filter is one the pattern captures: in every
    match it is bound to a string. *)
Definition filter_names_captured : Prop :=
  forall key group items name value,
    file_pattern key = Some group ->
    file_filter = Some items ->
    In (name, value) items ->
    exists s, dict_get group name = Some (Some s).

(** The ways the body of the inner loop can end for one key, with the
    events and the counters of each. *)
Inductive examine_case (key : string) (c : Counters)
    : list Event * Counters * Signal -> Prop :=
  | case_no_match :
      file_pattern key = None ->
      examine_case key c
        ([Examine key],
         S3PipelineStorage.count_filtered (S3PipelineStorage.count_total c),
         Next)
  | case_filtered group :
      file_pattern key = Some group ->
      S3PipelineStorage.filter_passes file_filter group = Ok false ->
      examine_case key c
        ([Examine key],
         S3PipelineStorage.count_filtered (S3PipelineStorage.count_total c),
         Next)
  | case_raise group e :
      file_pattern key = Some group ->
      S3PipelineStorage.filter_passes file_filter group = Raise e ->
      examine_case key c
        ([Examine key], S3PipelineStorage.count_total c, Throw e)
  | case_loaded group :
      file_pattern key = Some group ->
      S3PipelineStorage.filter_passes file_filter group = Ok true ->
      ((0 <? max_count)%Z && (max_count <=? Z.of_nat (S (num_loaded c)))%Z)
        = false ->
      examine_case key c
        ([Examine key; Yield key group],
         S3PipelineStorage.count_loaded (S3PipelineStorage.count_total c),
         Next)
  | case_last group :
      file_pattern key = Some group ->
      S3PipelineStorage.filter_passes file_filter group = Ok true ->
      ((0 <? max_count)%Z && (max_count <=? Z.of_nat (S (num_loaded c)))%Z)
        = true ->
      examine_case key c
        ([Examine key; Yield key group],
         S3PipelineStorage.count_loaded (S3PipelineStorage.count_total c),
         Stop).

End FindVocabulary.

(** The prefix [find] lists under. *)
Definition search_prefix (self : S3PipelineStorage.t)
    (base_dir : option string) : string :=
  match base_dir with
  | Some d =>
      if PyStr.truthy d
      then S3PipelineStorage.base_prefix self +:+ "/" +:+ d
      else S3PipelineStorage.base_prefix self
  | None => S3PipelineStorage.base_prefix self
  end.

(** The keys of a listing, page after page, up to the first failed request. *)
Fixpoint listed_keys (pages : list (result Page)) : list string :=
  match pages with
  | Ok page :: rest => map Key (default [] (Contents page)) ++ listed_keys rest
  | _ => []
  end.

Definition status_of (c : Counters) : Progress :=
  _create_progress_status (num_loaded c) (num_filtered c) (num_total c).

(** A page holding the given keys. *)
Definition page_of (keys : list string) : result Page :=
  Ok {| Contents := Some (map (fun k => {| Key := k |}) keys) |}.

(** A compiled pattern with the single named group "name" that takes the
    whole key: every key matches. *)
Definition whole_key : Pattern := fun key => Some [("name", Some key)].

(** A compiled pattern whose group "year" takes four leading digits when
    the key has them and takes no part in the match otherwise. *)
Definition optional_year : Pattern :=
  fun key =>
    let head := String.substring 0 4 key in
    if (Nat.eqb (String.length head) 4
        && forallb (fun c => bool_decide (is_Some (Ascii.is_nat c)))
             (String.list_ascii_of_string head))%bool
    then Some [("year", Some head)]
    else Some [("year", None)].

(** The WARNING records of a log. *)
Definition warnings (l : list (Level * string)) : list string :=
  omap (fun rec => match rec.1 with WARNING => Some rec.2 | _ => None end) l.

Section LoadVocabulary.

Context {C : Codecs}.
Variable gen_md5_hash : s3_text.Item -> list string -> string.

(** The row a listed file loads to on a given service, [None] when
    fetching or decoding it fails. *)
Definition loaded (w : World) (bucket : string)
    (file : string * groupdict) : option s3_text.Item :=
  match (s3_text.load_file gen_md5_hash bucket file.1 (Some file.2) w).1 with
  | Ok item => Some item
  | Raise _ => None
  end.

Definition fails (w : World) (bucket : string)
    (file : string * groupdict) : bool :=
  match loaded w bucket file with Some _ => false | None => true end.

End LoadVocabulary.

Definition skip_warning (file : string * groupdict) : string :=
  "Warning! Error loading file " +:+ file.1 +:+ " from S3. Skipping...".

(** A key that the listing loop of [load] keeps. *)
Definition is_text_file (pattern : Pattern) (key : string) : bool :=
  PyStr.endswith ".txt" key
  && match pattern key with Some _ => true | None => false end.

(** Every page of the listing is fetched and none holds a key the loop
    keeps. *)
Definition no_text_files (pattern : Pattern) (pages : list (result Page))
    : bool :=
  forallb (fun r =>
             match r with
             | Ok page =>
                 forallb (fun obj => negb (is_text_file pattern (Key obj)))
                   (default [] (Contents page))
             | Raise _ => false
             end) pages.

(** A stand-in for the digest: the values of the hashed columns, joined. *)
Definition joined_values (item : s3_text.Item) (columns : list string)
    : string :=
  String.concat "|" (omap (fun k => default None (dict_get item k)) columns).

(** An input configuration on bucket "b" under "docs", with the pattern
    source "docs/". *)
Definition docs_input : s3_text.PipelineInputConfig :=
  {| s3_text.bucket_name := Some "b";
     s3_text.base_prefix := Some "docs";
     s3_text.file_pattern := Some "docs/" |}.

(** Two worlds with the same service behind them. *)
Definition same_service (w1 w2 : World) : Prop :=
  objects w1 = objects w2 /\ fault w1 = fault w2.

(** The world in which [load] fetches a file: the progress reporter, when
    there is one, has been told. *)
Definition told (progress : option ProgressReporter) (file : string)
    (w : World) : World :=
  match progress with
  | Some _ => (report_progress ("Loading file: " +:+ file) w).2
  | None => w
  end.

(** A bucket "b" holding two text files under "docs", and listings of it. *)
Definition two_texts : World :=
  world_of [("b", "docs/a.txt", String.list_byte_of_string "hi");
            ("b", "docs/c.txt", String.list_byte_of_string "yo")].

Definition three_keys : Paginator :=
  fun _ _ => [page_of ["docs/a.txt"; "docs/b.txt"; "docs/c.txt"]].

Definition no_texts : Paginator :=
  fun _ _ => [page_of ["docs/readme.md"; "other/a.txt"]].

Definition listing_denied : Paginator :=
  fun _ _ => [page_of ["docs/a.txt"];
              Raise (ClientError "ListObjectsV2" "AccessDenied" "Access Denied")].

(** A service that rejects every request with AccessDenied. *)
Definition locked_world : World :=
  {| objects := ∅; fault := fun _ _ => Some ("AccessDenied", "Access Denied");
     calls := []; log := []; reported := [] |}.

(** ** clear, and the vocabulary of further statements *)

(** [clear] deletes in batches.  The world is extended with the DeleteObjects
    requests the service has received, each with its bucket and keys, newest
    last, and with the DeleteObjects requests the service refuses as a
    whole ([refused bucket keys] is the error code and message, e.g.
    AccessDenied on the bucket or NoSuchBucket). *)
Record BatchWorld : Type := {
  world : World;
  batches : list (string * list string);
  refused : string -> list string -> option (string * string)
}.

Module Bulk.

(** One DeleteObjects request.  A request the service refuses raises
    [ClientError] and deletes nothing.  Otherwise the service answers key by
    key: a key whose deletion it rejects stays and is named in the response,
    which the caller below does not read; the other keys are removed,
    present or not. *)
Definition delete_objects (Bucket : string) (Keys : list string)
    (bw : BatchWorld) : result unit * BatchWorld :=
  let w := world bw in
  let received := batches bw ++ [(Bucket, Keys)] in
  match refused bw Bucket Keys with
  | Some (code, msg) =>
      (Raise (ClientError "DeleteObjects" code msg),
       {| world := w; batches := received; refused := refused bw |})
  | None =>
      (Ok tt,
       {| world :=
            {| objects :=
                 foldr (fun k m =>
                          match fault w Bucket k with
                          | Some _ => m
                          | None => delete (Bucket, k) m
                          end) (objects w) Keys;
               fault := fault w; calls := calls w; log := log w;
               reported := reported w |};
          batches := received;
          refused := refused bw |})
  end.

(** The loop of [clear] over the pages of the listing. *)
Fixpoint clear_pages (bucket : string) (pages : list (result Page))
    (bw : BatchWorld) : result unit * BatchWorld :=
  match pages with
  | [] => (Ok tt, bw)
  | Raise e :: _ => (Raise e, bw)
  | Ok page :: rest =>
      let delete_keys := map Key (default [] (Contents page)) in
      match delete_keys with
      | [] => clear_pages bucket rest bw
      | _ =>
          match delete_objects bucket delete_keys bw with
          | (Ok _, bw') => clear_pages bucket rest bw'
          | (Raise e, bw') => (Raise e, bw')
          end
      end
  end.

Definition clear (paginate : Paginator) (self : S3PipelineStorage.t)
    (bw : BatchWorld) : result unit * BatchWorld :=
  clear_pages (S3PipelineStorage.bucket_name self)
    (paginate (S3PipelineStorage.bucket_name self)
       (S3PipelineStorage.base_prefix self)) bw.

End Bulk.

(** The key lists of the pages of a listing, up to the first failed
    request. *)
Fixpoint page_keys (pages : list (result Page)) : list (list string) :=
  match pages with
  | Ok page :: rest => map Key (default [] (Contents page)) :: page_keys rest
  | _ => []
  end.

(** The first failure of a listing, if any. *)
Fixpoint first_failure (pages : list (result Page)) : option exn :=
  match pages with
  | [] => None
  | Ok _ :: rest => first_failure rest
  | Raise e :: _ => Some e
  end.

(** The pages that hold keys, as key lists: one DeleteObjects request is due
    for each. *)
Definition due_requests (pages : list (result Page)) : list (list string) :=
  List.filter (fun keys => match keys with [] => false | _ => true end)
    (page_keys pages).

(** Of a sequence of requests, those before the first one the service
    refuses, and that first refusal with its error. *)
Fixpoint granted (refuse : list string -> option (string * string))
    (requests : list (list string)) : list (list string) :=
  match requests with
  | [] => []
  | keys :: rest =>
      match refuse keys with
      | Some _ => []
      | None => keys :: granted refuse rest
      end
  end.

Fixpoint refusal (refuse : list string -> option (string * string))
    (requests : list (list string)) : option (list string * (string * string)) :=
  match requests with
  | [] => None
  | keys :: rest =>
      match refuse keys with
      | Some error => Some (keys, error)
      | None => refusal refuse rest
      end
  end.

(** The entry a key gives rise to: the key with the groups of its match when
    it is accepted. *)
Definition entry_of {R : Regex} (file_pattern : Pattern)
    (file_filter : option (list (string * string))) (key : string)
    : option (string * groupdict) :=
  match file_pattern key with
  | Some group =>
      match S3PipelineStorage.filter_passes file_filter group with
      | Ok true => Some (key, group)
      | _ => None
      end
  | None => None
  end.

(** A storage on bucket "b" under "docs/out", a bucket holding one object
    under each of two keys, and a listing of it in two pages with an empty
    page between them. *)
Definition out_storage : S3PipelineStorage.t :=
  S3PipelineStorage.__init__ ambient_client None None "b" (Some "docs/out")
    None.

Definition two_objects : BatchWorld :=
  {| world := world_of [("b", "docs/a.txt", []); ("b", "other/b.txt", [])];
     batches := [];
     refused := fun _ _ => None |}.

(** The same bucket when the service refuses every DeleteObjects request
    that names "docs/z.txt". *)
Definition guarded_objects : BatchWorld :=
  {| world := world_of [("b", "docs/a.txt", []); ("b", "other/b.txt", [])];
     batches := [];
     refused := fun _ keys =>
       if bool_decide ("docs/z.txt" ∈ keys)
       then Some ("AccessDenied", "Access Denied") else None |}.

(** A listing in which a page with "docs/z.txt" comes first. *)
Definition z_first_listing : Paginator :=
  fun _ _ => [page_of ["docs/z.txt"]; page_of ["docs/a.txt"]].

Definition docs_listing : Paginator :=
  fun _ _ => [page_of ["docs/a.txt"]; Ok {| Contents := None |};
              page_of ["docs/z.txt"]].

(** An input configuration without a base prefix. *)
Definition no_prefix_input : s3_text.PipelineInputConfig :=
  {| s3_text.bucket_name := Some "b";
     s3_text.base_prefix := None;
     s3_text.file_pattern := None |}.

(** ** Strings *)

Section StringFacts.

Import PyStr.

Lemma startswith_app (p s : string) : startswith p (p +:+ s) = true.
Proof.
  induction p as [|a p IH]; simpl; [reflexivity|].
  now rewrite Ascii.eqb_refl.
Qed.

Lemma drop_app (p s : string) : drop (String.length p) (p +:+ s) = s.
Proof. induction p as [|a p IH]; simpl; [now destruct s | exact IH]. Qed.

Lemma app_assoc_str (a b c : string) : (a +:+ b) +:+ c = a +:+ (b +:+ c).
Proof.
  induction a as [|x a IH]; [reflexivity|].
  change (String x ((a +:+ b) +:+ c) = String x (a +:+ (b +:+ c))).
  now rewrite IH.
Qed.

Lemma replace1_unfold (s old new : string) :
  replace1 s old new =
    if startswith old s then new +:+ drop (String.length old) s
    else match s with
         | EmptyString => EmptyString
         | String c s' => String c (replace1 s' old new)
         end.
Proof. now destruct s. Qed.

(** Removing the leftmost occurrence of a string from a text that starts
    with it leaves the rest of the text. *)
Lemma replace1_leading (p s : string) : replace1 (p +:+ s) p "" = s.
Proof.
  rewrite replace1_unfold, startswith_app. apply drop_app.
Qed.

Lemma truthy_nonempty (s : string) : truthy s = true <-> s <> "".
Proof. destruct s; simpl; split; congruence. Qed.

(** For a non-empty base prefix the collapse hands the caller's key to the
    service unchanged. *)
Lemma collapsed_key_nonempty (bp key : string) :
  bp <> "" ->
  collapsed_key bp key =
    if Nat.ltb 1 (count (bp +:+ "/" +:+ key) bp) then key
    else bp +:+ "/" +:+ key.
Proof.
  intros Hbp. unfold collapsed_key, full_key.
  apply truthy_nonempty in Hbp. rewrite Hbp.
  destruct (Nat.ltb _ _); [|reflexivity].
  rewrite <- (app_assoc_str bp "/" key). apply replace1_leading.
Qed.

(** A full key that holds the base prefix at most once is left alone. *)
Lemma collapsed_key_single (bp key : string) :
  count (full_key bp key) bp <= 1 ->
  collapsed_key bp key = full_key bp key.
Proof.
  intros H. unfold collapsed_key.
  now destruct (Nat.ltb_spec 1 (count (full_key bp key) bp)); [lia|].
Qed.

Lemma ascii_codecs_lossless : lossless ascii_codecs.
Proof.
  intros enc s b. simpl. destruct (all_ascii s) eqn:E; [|discriminate].
  intros [= <-]. now rewrite String.string_of_list_byte_of_string, E.
Qed.

End StringFacts.

(** ** Key resolution, get, set, has and child *)

Section StorageFacts.

Import S3PipelineStorage.
Context {C : Codecs}.

Lemma get_unfold (self : t) (key : string) (as_bytes : option bool)
    (encoding : option string) (w : World) :
  get self key as_bytes encoding w =
    match s3.get_object (bucket_name self)
            (collapsed_key (base_prefix self) key) w with
    | (Ok data, w') =>
        if default false as_bytes then (Ok (Some (VBytes data)), w')
        else match bytes_decode (PyStr.or_else encoding "utf-8") data with
             | Some text => (Ok (Some (VStr text)), w')
             | None => (Raise UnicodeError, w')
             end
    | (Raise (ClientError op code msg), w') =>
        (if String.eqb code "NoSuchKey" then Ok None
         else Raise (ClientError op code msg),
         log_error ("Error fetching object from S3: " +:+ msg) w')
    | (Raise e, w') => (Raise e, w')
    end.
Proof.
  unfold get, try_except_ClientError, bind, collapsed_key, full_key.
  destruct (s3.get_object _ _ w) as [[data|e] w']; simpl.
  - destruct (default false as_bytes); [reflexivity|].
    now destruct (bytes_decode _ data).
  - destruct e; try reflexivity. unfold logging, log_error, ret, raise.
    now destruct (String.eqb code "NoSuchKey").
Qed.

Lemma set_unfold (self : t) (key : string) (v : Value)
    (encoding : option string) (w : World) :
  set self key v encoding w =
    match body_of v encoding with
    | Some body =>
        s3.put_object (bucket_name self)
          (full_key (base_prefix self) key) body w
    | None => (Raise UnicodeError, w)
    end.
Proof.
  unfold set, body_of, full_key. destruct v as [b|text]; [reflexivity|].
  now destruct (str_encode _ text).
Qed.

(** C2 (amended): get, set, has and delete all resolve the caller's key as
    base_prefix + "/" + key when base_prefix is non-empty and as key
    otherwise; set, has and delete send exactly that key to the service
    and only get collapses a repeated base prefix, which for a non-empty
    base_prefix means that a full key containing the prefix more than once
    is replaced by the caller's key. *)
Theorem C2_key_resolution (self : t) (key : string) (w : World) :
  let b := bucket_name self in
  let bp := base_prefix self in
  let fk := if PyStr.truthy bp then bp +:+ "/" +:+ key else key in
  (forall v encoding,
      calls (set self key v encoding w).2 =
        calls w ++ match body_of v encoding with
                   | Some body => [PutObject b fk body]
                   | None => []
                   end)
  /\ calls (has self key w).2 = calls w ++ [HeadObject b fk]
  /\ calls (delete self key w).2 = calls w ++ [DeleteObject b fk]
  /\ (forall as_bytes encoding,
        calls (get self key as_bytes encoding w).2 =
          calls w ++ [GetObject b (collapsed_key bp key)])
  /\ (bp <> "" ->
      collapsed_key bp key =
        if Nat.ltb 1 (PyStr.count fk bp) then key else fk).
Proof.
  cbv zeta. repeat split.
  - intros v encoding. rewrite set_unfold. unfold full_key.
    destruct (body_of v encoding) as [body|]; simpl.
    + unfold s3.put_object.
      now destruct (fault w _ _) as [[code msg]|].
    + now rewrite app_nil_r.
  - unfold has, try_except_ClientError, bind, s3.head_object, ret.
    destruct (fault w _ _) as [[code msg]|]; [reflexivity|].
    now destruct (objects w !! _).
  - unfold delete, s3.delete_object.
    now destruct (fault w _ _) as [[code msg]|].
  - intros as_bytes encoding. rewrite get_unfold. unfold s3.get_object.
    destruct (fault w _ _) as [[code msg]|].
    + now destruct (String.eqb code "NoSuchKey").
    + destruct (objects w !! _) as [data|]; [|reflexivity].
      destruct (default false as_bytes); [reflexivity|].
      now destruct (bytes_decode _ data).
  - intros Hbp. rewrite (collapsed_key_nonempty _ _ Hbp).
    apply truthy_nonempty in Hbp. now rewrite Hbp.
Qed.

(** C1 (amended): for every key that the prefix collapse of get leaves
    alone (in particular whenever the base prefix occurs at most once in
    the full key), if set(k, v) succeeds then get(k) on the same instance,
    with as_bytes matching the kind of v and the same encoding of a
    lossless codec, returns content equal to v. *)
Theorem C1_set_get_roundtrip (self : t) (key : string) (v : Value)
    (encoding : option string) (w w' : World) :
  lossless C ->
  collapsed_key (base_prefix self) key = full_key (base_prefix self) key ->
  set self key v encoding w = (Ok tt, w') ->
  (get self key (Some (is_bytes v)) encoding w').1 = Ok (Some v).
Proof.
  intros HC Hkey Hset. rewrite set_unfold in Hset.
  destruct (body_of v encoding) as [body|] eqn:Hbody; [|discriminate].
  unfold s3.put_object in Hset.
  destruct (fault w _ _) as [[code msg]|] eqn:Hfault; [discriminate|].
  injection Hset as <-.
  rewrite get_unfold, Hkey. unfold s3.get_object; simpl.
  rewrite Hfault, lookup_insert_eq.
  destruct v as [b|text]; simpl in *.
  - now injection Hbody as ->.
  - now rewrite (HC _ _ _ Hbody).
Qed.

(** C6 (amended): when the service answers the GetObject request for the
    resolved key with a ClientError, get logs the error message and then
    returns the absence marker if the code is NoSuchKey and re-raises the
    same error otherwise.  When the service returns the body, get logs
    nothing: it returns the content, or, when text is asked for and the
    body does not decode, raises the decoding error, which reaches the
    caller without a log record. *)
Theorem C6_get_failures (self : t) (key : string)
    (as_bytes : option bool) (encoding : option string) (w w1 : World) :
  let answer :=
    s3.get_object (bucket_name self)
      (collapsed_key (base_prefix self) key) w in
  (forall op code msg,
      answer = (Raise (ClientError op code msg), w1) ->
      get self key as_bytes encoding w =
        (if String.eqb code "NoSuchKey" then Ok None
         else Raise (ClientError op code msg),
         log_error ("Error fetching object from S3: " +:+ msg) w1))
  /\ (forall data,
        answer = (Ok data, w1) ->
        get self key as_bytes encoding w =
          (if default false as_bytes then Ok (Some (VBytes data))
           else match bytes_decode (PyStr.or_else encoding "utf-8") data with
                | Some text => Ok (Some (VStr text))
                | None => Raise UnicodeError
                end,
           w1)).
Proof.
  cbv zeta. split.
  - intros op code msg H. now rewrite get_unfold, H.
  - intros data H. rewrite get_unfold, H.
    destruct (default false as_bytes); [reflexivity|].
    now destruct (bytes_decode _ data).
Qed.

(** C8 (amended): has probes the resolved full key (no collapse) with one
    HeadObject request and never raises on a ClientError: it returns true
    exactly when the service accepts the request and holds the object, and
    false for an absent key and for a rejected request (an access failure)
    alike. *)
Theorem C8_has_never_raises (self : t) (key : string) (w : World) :
  let b := bucket_name self in
  let fk := full_key (base_prefix self) key in
  has self key w =
    (Ok (match fault w b fk with
         | Some _ => false
         | None => bool_decide (is_Some (objects w !! (b, fk)))
         end),
     record_call (HeadObject b fk) w).
Proof.
  cbv zeta. unfold has, try_except_ClientError, bind, s3.head_object, ret.
  fold (full_key (base_prefix self) key).
  destruct (fault w _ _) as [[code msg]|]; [reflexivity|].
  now destruct (objects w !! _) as [data|].
Qed.

(** C7 (the code): child(None) returns the same instance and creates
    nothing.  For every other name, whatever the instance and its client,
    child raises AttributeError while it evaluates the first argument of
    the constructor call, because the [meta] of a boto3 client has no
    attribute [client]; no instance is created. *)
Theorem C7_child_raises (boto3_client : Client) (heap : list t) (self : nat)
    (me : t) (name : string) :
  heap !! self = Some me ->
  child boto3_client self None heap = Some (Ok (self, heap))
  /\ child boto3_client self (Some name) heap =
       Some (Raise (AttributeError "ClientMeta" "client")).
Proof.
  intros Hme. split; [reflexivity|]. unfold child. now rewrite Hme.
Qed.

End StorageFacts.

(** *** The storage operations on concrete stores *)

(** C1, witness: text written under "docs" at key "a.txt" is read back. *)
Lemma C1_roundtrip_witness :
  lossless ascii_codecs
  /\ collapsed_key "docs" "a.txt" = full_key "docs" "a.txt"
  /\ (@S3PipelineStorage.get ascii_codecs docs_storage "a.txt" (Some false) None
        (@S3PipelineStorage.set ascii_codecs docs_storage "a.txt" (VStr "hi")
           None (world_of [])).2).1
     = Ok (Some (VStr "hi")).
Proof.
  split; [exact ascii_codecs_lossless|]. split; [reflexivity|].
  apply (@C1_set_get_roundtrip ascii_codecs docs_storage "a.txt" (VStr "hi")
           None (world_of []) _ ascii_codecs_lossless);
    reflexivity.
Defined.

(** C1, counterexample: under base prefix "docs" the key "docs/a.txt" is
    written to "docs/docs/a.txt" and read from "docs/a.txt", so get answers
    with the absence marker right after a successful set. *)
Lemma C1_prefixed_key_lost :
  ((@S3PipelineStorage.set ascii_codecs docs_storage "docs/a.txt" (VStr "hi")
      None ;;;
    @S3PipelineStorage.get ascii_codecs docs_storage "docs/a.txt" (Some false)
      None)%py (world_of [])).1
  = Ok None.
Proof. reflexivity. Qed.

(** With an empty base prefix the collapse test counts the empty string,
    which occurs in every non-empty key, and the replacement then deletes the
    first slash of the key: "a/b.txt" is written as such and read from
    "ab.txt". *)
Lemma root_storage_get_drops_slash :
  PyStr.count "a/b.txt" "" = 8
  /\ calls ((@S3PipelineStorage.set ascii_codecs root_storage "a/b.txt"
               (VStr "hi") None ;;;
             @S3PipelineStorage.get ascii_codecs root_storage "a/b.txt"
               (Some false) None)%py (world_of [])).2
     = [PutObject "b" "a/b.txt" [Byte.x68; Byte.x69]; GetObject "b" "ab.txt"].
Proof. split; reflexivity. Qed.

(** The same happens for a key that merely contains the base prefix as a
    substring. *)
Lemma substring_key_leaves_scope :
  collapsed_key "docs" "mydocs.txt" = "mydocs.txt"
  /\ full_key "docs" "mydocs.txt" = "docs/mydocs.txt".
Proof. split; reflexivity. Qed.

(** C2, counterexample: set, has and delete send the full key with the base
    prefix twice, where the collapse would send "docs/a.txt". *)
Lemma C2_only_get_collapses :
  calls (@S3PipelineStorage.set ascii_codecs docs_storage "docs/a.txt"
           (VBytes []) None (world_of [])).2
    = [PutObject "b" "docs/docs/a.txt" []]
  /\ calls (S3PipelineStorage.has docs_storage "docs/a.txt" (world_of [])).2
     = [HeadObject "b" "docs/docs/a.txt"]
  /\ calls (S3PipelineStorage.delete docs_storage "docs/a.txt" (world_of [])).2
     = [DeleteObject "b" "docs/docs/a.txt"]
  /\ PyStr.count "docs/docs/a.txt" "docs" = 2
  /\ collapsed_key "docs" "docs/a.txt" = "docs/a.txt".
Proof. repeat split; reflexivity. Qed.

(** C6, on concrete stores: a key that was never set, and a bucket that
    denies access. *)
Lemma C6_get_witness :
  @S3PipelineStorage.get ascii_codecs docs_storage "a.txt" None None
    (world_of [])
  = (Ok None,
     log_error "Error fetching object from S3: The specified key does not exist."
       (record_call (GetObject "b" "docs/a.txt") (world_of [])))
  /\ @S3PipelineStorage.get ascii_codecs docs_storage "a.txt" None None
       locked_world
     = (Raise (ClientError "GetObject" "AccessDenied" "Access Denied"),
        log_error "Error fetching object from S3: Access Denied"
          (record_call (GetObject "b" "docs/a.txt") locked_world))
  /\ @S3PipelineStorage.get ascii_codecs docs_storage "a.txt" None None
       two_texts
     = (Ok (Some (VStr "hi")),
        record_call (GetObject "b" "docs/a.txt") two_texts).
Proof.
  split; [|split].
  - apply (proj1 (@C6_get_failures ascii_codecs docs_storage "a.txt" None None
                    (world_of []) _)
             "GetObject" "NoSuchKey" "The specified key does not exist.").
    reflexivity.
  - apply (proj1 (@C6_get_failures ascii_codecs docs_storage "a.txt" None None
                    locked_world _)
             "GetObject" "AccessDenied" "Access Denied").
    reflexivity.
  - apply (proj2 (@C6_get_failures ascii_codecs docs_storage "a.txt" None None
                    two_texts _)
             (String.list_byte_of_string "hi")).
    reflexivity.
Defined.

(** C6, counterexample: the object is there but its body, the byte 0xff, is
    not text.  get raises the decoding error, and the log stays empty: this
    failure of the retrieval reaches the caller without having been
    logged. *)
Lemma C6_decode_failure_not_logged :
  let run :=
    @S3PipelineStorage.get ascii_codecs docs_storage "a.txt" None None
      (world_of [("b", "docs/a.txt", [Byte.xff])]) in
  run.1 = Raise UnicodeError /\ log run.2 = [].
Proof. split; reflexivity. Qed.

(** C7, witness: a heap holding the "docs" storage at address 0, and the
    name "out". *)
Lemma C7_child_raises_witness :
  S3PipelineStorage.child ambient_client 0 None [docs_storage]
  = Some (Ok (0, [docs_storage]))
  /\ S3PipelineStorage.child ambient_client 0 (Some "out") [docs_storage]
     = Some (Raise (AttributeError "ClientMeta" "client")).
Proof.
  exact (C7_child_raises ambient_client [docs_storage] 0 docs_storage "out"
           eq_refl).
Defined.

(** C8, counterexample: on a bucket that denies access, has answers false
    and raises nothing. *)
Lemma C8_access_denied_is_false :
  (S3PipelineStorage.has docs_storage "a.txt" locked_world).1 = Ok false.
Proof. reflexivity. Qed.

(** ** find: traces, counters and progress calls *)

Section TraceFacts.

Lemma examined_app (t1 t2 : list Event) :
  examined (t1 ++ t2) = examined t1 ++ examined t2.
Proof. apply omap_app. Qed.

Lemma yields_app (t1 t2 : list Event) :
  yields (t1 ++ t2) = yields t1 ++ yields t2.
Proof. apply omap_app. Qed.

Lemma reports_app (t1 t2 : list Event) :
  reports (t1 ++ t2) = reports t1 ++ reports t2.
Proof. apply omap_app. Qed.

Lemma trace_cons (e : Event) (tr : list Event) :
  examined (e :: tr)
    = match e with Examine k => k :: examined tr | _ => examined tr end
  /\ yields (e :: tr)
    = match e with Yield k g => (k, g) :: yields tr | _ => yields tr end
  /\ reports (e :: tr)
    = match e with Report p => p :: reports tr | _ => reports tr end.
Proof. now destruct e. Qed.

Lemma examined_cons (e : Event) (tr : list Event) :
  examined (e :: tr)
    = match e with Examine k => k :: examined tr | _ => examined tr end.
Proof. apply trace_cons. Qed.

Lemma yields_cons (e : Event) (tr : list Event) :
  yields (e :: tr)
    = match e with Yield k g => (k, g) :: yields tr | _ => yields tr end.
Proof. apply trace_cons. Qed.

Lemma reports_cons (e : Event) (tr : list Event) :
  reports (e :: tr)
    = match e with Report p => p :: reports tr | _ => reports tr end.
Proof. apply trace_cons. Qed.

End TraceFacts.

Create Rewrite HintDb trace.
#[local] Hint Rewrite examined_app yields_app reports_app
  examined_cons yields_cons reports_cons : trace.

Section FindFacts.

Import S3PipelineStorage.
Context {R : Regex}.
Variable file_pattern : Pattern.
Variable progress : option ProgressReporter.
Variable file_filter : option (list (string * string)).
Variable max_count : Z.

Local Abbreviation examine := (examine file_pattern file_filter max_count).
Local Abbreviation report := (report progress).
Local Abbreviation find_contents :=
  (find_contents file_pattern progress file_filter max_count).
Local Abbreviation find_pages :=
  (find_pages file_pattern progress file_filter max_count).
Local Abbreviation accepts := (accepted file_pattern file_filter).
Local Abbreviation counts := (counts_of file_pattern file_filter).
Local Abbreviation examine_case :=
  (examine_case file_pattern file_filter max_count).
Local Abbreviation yield_ok := (yield_ok file_pattern file_filter).

Lemma yields_report (c : Counters) : yields (report c) = [].
Proof. unfold S3PipelineStorage.report. now destruct progress. Qed.

Lemma examined_report (c : Counters) : examined (report c) = [].
Proof. unfold S3PipelineStorage.report. now destruct progress. Qed.

Lemma examine_cases (key : string) (c : Counters) :
  examine_case key c (examine key c).
Proof.
  unfold S3PipelineStorage.examine.
  destruct (file_pattern key) as [group|] eqn:Hm; [|now constructor].
  destruct (filter_passes file_filter group) as [[|]|e] eqn:Hf.
  - cbv zeta.
    change (num_loaded (count_loaded (count_total c)))
      with (S (num_loaded c)).
    destruct ((0 <? max_count)%Z && _) eqn:Hn.
    + now apply case_last.
    + now apply case_loaded.
  - now apply case_filtered with group.
  - now apply case_raise with group.
Qed.

Lemma find_contents_cons (obj : S3Object) (rest : list S3Object)
    (c : Counters) :
  find_contents (obj :: rest) c =
    match examine (Key obj) c with
    | (evs, c', Next) =>
        let '(tr, c'', sg) := find_contents rest c' in
        (evs ++ report c' ++ tr, c'', sg)
    | stopped => stopped
    end.
Proof. reflexivity. Qed.

Ltac examine_inv H :=
  rewrite find_contents_cons in H;
  match type of H with
  | context [S3PipelineStorage.examine ?p ?f ?m ?key ?c] =>
      let Hx := fresh "Hx" in
      let evs := fresh "evs" in
      let c1 := fresh "c" in
      let sg1 := fresh "sg" in
      pose proof (examine_cases key c) as Hx;
      destruct (S3PipelineStorage.examine p f m key c) as [[evs c1] sg1];
      inversion Hx as [Hm|g Hm Hf|g e Hm Hf|g Hm Hf Hn|g Hm Hf Hn];
      subst evs c1 sg1; clear Hx
  end.

Lemma find_contents_loaded (contents : list S3Object) (c c' : Counters)
    (tr : list Event) (sg : Signal) :
  (0 < max_count)%Z ->
  (Z.of_nat (num_loaded c) < max_count)%Z ->
  find_contents contents c = (tr, c', sg) ->
  num_loaded c' = num_loaded c + length (yields tr)
  /\ match sg with
     | Stop => Z.of_nat (num_loaded c') = max_count
               /\ exists tr0 key group, tr = tr0 ++ [Yield key group]
     | _ => (Z.of_nat (num_loaded c') < max_count)%Z
     end.
Proof.
  intros Hpos. revert c c' tr sg.
  induction contents as [|obj rest IH]; intros c c' tr sg Hc H.
  - injection H as <- <- <-. simpl. split; [lia | exact Hc].
  - examine_inv H.
    all: try (destruct (find_contents rest _) as [[tr' c''] sg'] eqn:E;
              injection H as <- <- <-).
    all: try (injection H as <- <- <-).
    all: autorewrite with trace; rewrite ?yields_report; simpl.
    + apply IH in E as [E1 E2]; [|exact Hc]. simpl in E1. split; [lia|].
      destruct sg'; try exact E2. destruct E2 as [E2 (tr0 & k & g' & ->)].
      split; [exact E2|]. rewrite app_assoc. eexists (_ :: _), k, g'. reflexivity.
    + apply IH in E as [E1 E2]; [|exact Hc]. simpl in E1. split; [lia|].
      destruct sg'; try exact E2. destruct E2 as [E2 (tr0 & k & g' & ->)].
      split; [exact E2|]. rewrite app_assoc. eexists (_ :: _), k, g'. reflexivity.
    + split; [lia | exact Hc].
    + apply andb_false_iff in Hn as [Hn|Hn]; [apply Z.ltb_ge in Hn; lia|].
      apply Z.leb_gt in Hn.
      apply IH in E as [E1 E2]; [|simpl; lia]. simpl in E1. split; [lia|].
      destruct sg'; try exact E2. destruct E2 as [E2 (tr0 & k & g' & ->)].
      split; [exact E2|]. rewrite app_assoc. eexists (_ :: _ :: _), k, g'. reflexivity.
    + apply andb_true_iff in Hn as [_ Hn]. apply Z.leb_le in Hn.
      split; [lia|]. split; [lia|].
      now exists [Examine (Key obj)], (Key obj), g.
Qed.

Lemma find_pages_cons (r : result Page) (rest : list (result Page))
    (c : Counters) :
  find_pages (r :: rest) c =
    match r with
    | Raise e => ([Fetch], c, Raised e)
    | Ok page =>
        match find_contents (default [] (Contents page)) c with
        | (tr, c', Next) =>
            let '(tr', c'', out) := find_pages rest c' in
            (Fetch :: tr ++ tr', c'', out)
        | (tr, c', Stop) => (Fetch :: tr, c', Returned)
        | (tr, c', Throw e) => (Fetch :: tr, c', Raised e)
        end
    end.
Proof. now destruct r. Qed.

Ltac pages_inv H :=
  rewrite find_pages_cons in H;
  match type of H with
  | context [match ?r with Ok _ => _ | Raise _ => _ end] =>
      destruct r as [page|e];
      [ let E := fresh "E" in
        destruct (find_contents (default [] (Contents page)) _)
          as [[tr1 c1] [| |e]] eqn:E;
        [ let E' := fresh "E'" in
          destruct (find_pages _ c1) as [[tr2 c2] out2] eqn:E' | | ]
      | ];
      injection H as <- <- <-
  end.

Lemma find_pages_loaded (pages : list (result Page)) (c c' : Counters)
    (tr : list Event) (out : Outcome) :
  (0 < max_count)%Z ->
  (Z.of_nat (num_loaded c) < max_count)%Z ->
  find_pages pages c = (tr, c', out) ->
  num_loaded c' = num_loaded c + length (yields tr)
  /\ match out with
     | Returned => Z.of_nat (num_loaded c') = max_count
                   /\ exists tr0 key group, tr = tr0 ++ [Yield key group]
     | _ => (Z.of_nat (num_loaded c') < max_count)%Z
     end.
Proof.
  intros Hpos. revert c c' tr out.
  induction pages as [|r rest IH]; intros c c' tr out Hc H.
  - injection H as <- <- <-. simpl. split; [lia | exact Hc].
  - pages_inv H; autorewrite with trace; simpl.
    + apply find_contents_loaded in E as [E1 E2]; [|exact Hpos|exact Hc].
      apply IH in E' as [E3 E4]; [|exact E2].
      rewrite length_app. split; [lia|].
      destruct out2; try exact E4. destruct E4 as [E4 (tr0 & k & g & ->)].
      split; [exact E4|]. exists (Fetch :: tr1 ++ tr0), k, g.
      simpl. now rewrite app_assoc.
    + apply find_contents_loaded in E as [E1 [E2 (tr0 & k & g & ->)]];
        [|exact Hpos|exact Hc].
      split; [exact E1|]. split; [exact E2|]. now exists (Fetch :: tr0), k, g.
    + apply find_contents_loaded in E as [E1 E2]; [|exact Hpos|exact Hc].
      now split.
    + split; [lia | exact Hc].
Qed.

(** C5: for every positive max_count = N, find yields at most N entries,
    and when it has yielded N of them the generator returns at once: the
    N-th yield is the last event of the scan, so no further page is
    requested and no further key is examined. *)
Theorem C5_max_count_ends_scan (paginate : Paginator) (self : t)
    (base_dir : option string) :
  (0 < max_count)%Z ->
  let run := find paginate file_pattern progress file_filter max_count
               self base_dir in
  (Z.of_nat (length (yields run.1.1)) <= max_count)%Z
  /\ (Z.of_nat (length (yields run.1.1)) = max_count ->
      run.2 = Returned
      /\ exists tr0 key group, run.1.1 = tr0 ++ [Yield key group]).
Proof.
  intros Hpos run.
  destruct run as [[tr c] out] eqn:E. unfold run, find in E.
  apply find_pages_loaded in E as [E1 E2]; [|exact Hpos|simpl; lia].
  simpl in *. split.
  - destruct out; [lia| |lia]. destruct E2; lia.
  - intros Hn. destruct out; [lia| |lia]. now destruct E2.
Qed.

Lemma counts_of_snoc (pre : list string) (key : string) :
  counts (pre ++ [key]) =
    if accepts key then count_loaded (count_total (counts pre))
    else count_filtered (count_total (counts pre)).
Proof.
  unfold counts_of, count_loaded, count_filtered, count_total.
  rewrite !List.filter_app, !length_app. simpl.
  destruct (accepts key); simpl; f_equal; lia.
Qed.

Lemma accepted_no_match (key : string) :
  file_pattern key = None -> accepts key = false.
Proof. intros H. unfold accepted. now rewrite H. Qed.

Lemma accepted_filter (key : string) (group : groupdict) (b : bool) :
  file_pattern key = Some group ->
  filter_passes file_filter group = Ok b ->
  accepts key = b.
Proof. intros H1 H2. unfold accepted. rewrite H1, H2. now destruct b. Qed.

Lemma count_filtered_snoc (pre : list string) (key : string) :
  accepts key = false ->
  count_filtered (count_total (counts pre)) = counts (pre ++ [key]).
Proof. intros H. now rewrite counts_of_snoc, H. Qed.

Lemma count_loaded_snoc (pre : list string) (key : string) :
  accepts key = true ->
  count_loaded (count_total (counts pre)) = counts (pre ++ [key]).
Proof. intros H. now rewrite counts_of_snoc, H. Qed.

Lemma find_contents_counts (contents : list S3Object) (pre : list string)
    (c' : Counters) (tr : list Event) (sg : Signal) :
  find_contents contents (counts pre) = (tr, c', sg) ->
  match sg with
  | Throw _ => True
  | _ => c' = counts (pre ++ examined tr)
  end
  /\ Forall yield_ok (yields tr).
Proof.
  revert pre c' tr sg.
  induction contents as [|obj rest IH]; intros pre c' tr sg H.
  - injection H as <- <- <-. simpl. now rewrite app_nil_r.
  - examine_inv H.
    all: try (destruct (find_contents rest _) as [[tr' c''] sg'] eqn:E;
              injection H as <- <- <-).
    all: try (injection H as <- <- <-).
    all: autorewrite with trace; rewrite ?yields_report, ?examined_report;
      simpl.
    all: try rewrite (count_filtered_snoc pre (Key obj)) in *
           by eauto using accepted_no_match, accepted_filter.
    all: try rewrite (count_loaded_snoc pre (Key obj)) in *
           by eauto using accepted_filter.
    all: try (apply IH in E as [E1 E2]; rewrite <- app_assoc in E1; simpl in E1).
    all: repeat split; auto.
    all: repeat (constructor; [now split|]); try assumption; constructor.
Qed.

Lemma find_contents_examined (contents : list S3Object) (c c' : Counters)
    (tr : list Event) :
  find_contents contents c = (tr, c', Next) ->
  examined tr = map Key contents.
Proof.
  revert c c' tr. induction contents as [|obj rest IH]; intros c c' tr H.
  - now injection H as <- <-.
  - examine_inv H.
    all: try (destruct (find_contents rest _) as [[tr' c''] sg'] eqn:E;
              injection H as <- <- ->; apply IH in E).
    all: try discriminate.
    all: autorewrite with trace; rewrite ?examined_report; simpl;
      now rewrite E.
Qed.

Lemma find_pages_examined (pages : list (result Page)) (c c' : Counters)
    (tr : list Event) :
  find_pages pages c = (tr, c', Exhausted) ->
  examined tr = listed_keys pages.
Proof.
  revert c c' tr. induction pages as [|p rest IH]; intros c c' tr H.
  - now injection H as <- <-.
  - rewrite find_pages_cons in H. destruct p as [page|e]; [|discriminate].
    destruct (find_contents _ c) as [[tr1 c1] [| |e]] eqn:E;
      [|discriminate..].
    destruct (find_pages rest c1) as [[tr2 c2] out2] eqn:E'.
    injection H as <- <- ->. autorewrite with trace. simpl.
    apply find_contents_examined in E. apply IH in E'. now rewrite E, E'.
Qed.

Section CapturedGroups.

Hypothesis Hcaptured : filter_names_captured file_pattern file_filter.

Lemma filter_all_total (group : groupdict) (items : list (string * string)) :
  (forall name value, In (name, value) items ->
                      exists s, dict_get group name = Some (Some s)) ->
  exists b, filter_all group items = Ok b.
Proof.
  induction items as [|[name value] items IH]; intros H; simpl.
  - now exists true.
  - destruct (H name value) as [s ->]; [now left|].
    destruct (re_match value s); [|now exists false].
    apply IH. intros n v Hin. apply (H n v). now right.
Qed.

Lemma filter_passes_total (key : string) (group : groupdict) :
  file_pattern key = Some group ->
  exists b, filter_passes file_filter group = Ok b.
Proof.
  intros Hm. unfold filter_passes.
  destruct file_filter as [items|] eqn:Hf; [|now exists true].
  apply filter_all_total. intros name value Hin.
  exact (Hcaptured key group items name value Hm eq_refl Hin).
Qed.

Lemma find_contents_no_throw (contents : list S3Object) (c c' : Counters)
    (tr : list Event) (err : exn) :
  find_contents contents c <> (tr, c', Throw err).
Proof.
  revert c c' tr. induction contents as [|obj rest IH]; intros c c' tr H.
  - discriminate.
  - examine_inv H.
    all: try (destruct (find_contents rest _) as [[tr' c''] sg'] eqn:E;
              injection H as _ _ ->; exact (IH _ _ _ E)).
    all: try discriminate.
    destruct (filter_passes_total _ _ Hm) as [b Hb]. congruence.
Qed.

Lemma find_pages_counts (pages : list (result Page)) (pre : list string)
    (c' : Counters) (tr : list Event) (out : Outcome) :
  find_pages pages (counts pre) = (tr, c', out) ->
  c' = counts (pre ++ examined tr)
  /\ Forall yield_ok (yields tr)
  /\ forall e, out = Raised e -> In (Raise e) pages.
Proof.
  revert pre c' tr out.
  induction pages as [|r rest IH]; intros pre c' tr out H.
  - injection H as <- <- <-. simpl. rewrite app_nil_r.
    repeat split; [constructor | discriminate].
  - pages_inv H; autorewrite with trace; simpl.
    + apply find_contents_counts in E as [-> E2].
      apply IH in E' as (-> & E3 & E4). rewrite <- app_assoc.
      repeat split; [now apply Forall_app|].
      intros e He. right. now apply E4.
    + apply find_contents_counts in E as [-> E2].
      repeat split; [assumption | discriminate].
    + now apply find_contents_no_throw in E.
    + rewrite app_nil_r. repeat split; [constructor|].
      intros e' [= ->]. now left.
Qed.

End CapturedGroups.

Section Reporting.

Variable r : ProgressReporter.
Hypothesis Hprogress : progress = Some r.

Lemma reports_report (c : Counters) : reports (report c) = [status_of c].
Proof. unfold S3PipelineStorage.report. now rewrite Hprogress. Qed.

(** The status the callback is given after the first [n] of [keys]. *)
Local Abbreviation status_at keys :=
  (fun n => status_of (counts (take n keys))).

Lemma find_contents_reports (contents : list S3Object) (pre : list string)
    (c' : Counters) (tr : list Event) (sg : Signal) :
  find_contents contents (counts pre) = (tr, c', sg) ->
  reports tr = map (status_at (pre ++ examined tr))
                 (seq (S (length pre)) (length (reports tr)))
  /\ match sg with
     | Next => length (reports tr) = length (examined tr)
     | _ => S (length (reports tr)) = length (examined tr)
     end.
Proof.
  revert pre c' tr sg.
  induction contents as [|obj rest IH]; intros pre c' tr sg H.
  - now injection H as <- <- <-.
  - examine_inv H.
    all: try (destruct (find_contents rest _) as [[tr' c''] sg'] eqn:E;
              injection H as <- <- <-).
    all: try (injection H as <- <- <-).
    all: autorewrite with trace;
      rewrite ?reports_report, ?examined_report; simpl.
    all: try rewrite (count_filtered_snoc pre (Key obj)) in *
           by eauto using accepted_no_match, accepted_filter.
    all: try rewrite (count_loaded_snoc pre (Key obj)) in *
           by eauto using accepted_filter.
    all: try (apply IH in E as [E1 E2];
              rewrite <- app_assoc, length_app, Nat.add_1_r in E1;
              simpl in E1; split;
              [ f_equal; [|exact E1] | destruct sg'; lia ]).
    all: try (split; reflexivity).
    all: rewrite (cons_middle (Key obj) pre (examined tr')),
           (app_assoc pre [Key obj] (examined tr'));
      rewrite take_app_length'; [reflexivity|];
      rewrite length_app; simpl; lia.
Qed.

Lemma find_pages_reports (pages : list (result Page)) (pre : list string)
    (c' : Counters) (tr : list Event) (out : Outcome) :
  find_pages pages (counts pre) = (tr, c', out) ->
  reports tr = map (status_at (pre ++ examined tr))
                 (seq (S (length pre)) (length (reports tr)))
  /\ match out with
     | Exhausted => length (reports tr) = length (examined tr)
     | Returned => S (length (reports tr)) = length (examined tr)
     | Raised _ =>
         length (reports tr) <= length (examined tr)
         /\ length (examined tr) <= S (length (reports tr))
     end.
Proof.
  revert pre c' tr out.
  induction pages as [|p rest IH]; intros pre c' tr out H.
  - now injection H as <- <- <-.
  - pages_inv H; autorewrite with trace; simpl.
    + pose proof (find_contents_counts _ _ _ _ _ E) as [-> _].
      apply find_contents_reports in E as [E1 E2].
      apply IH in E' as [E3 E4].
      rewrite !length_app. split.
      * rewrite seq_app, map_app. f_equal.
        -- rewrite E1 at 1. apply map_ext_in. intros n Hn.
           apply in_seq in Hn.
           rewrite (app_assoc pre (examined tr1) (examined tr2)),
             (take_app_le (pre ++ examined tr1) (examined tr2) n);
             [reflexivity|]. rewrite length_app. lia.
        -- rewrite E3 at 1. rewrite <- app_assoc, length_app.
           do 2 f_equal. lia.
      * destruct out2; lia.
    + now apply find_contents_reports in E.
    + apply find_contents_reports in E as [E1 E2]. split; [exact E1|lia].
    + split; [reflexivity|lia].
Qed.

End Reporting.
(** C3 (amended): when every group named by the filter is captured (bound
    to a string) in every match of the pattern, an object key that matches
    the pattern but whose groups fail the filter is never yielded and is
    counted as filtered, and the filter raises nothing: the scan can only
    end in an error through a failed page request. *)
Theorem C3_filtered_keys_are_skipped (paginate : Paginator) (self : t)
    (base_dir : option string) :
  filter_names_captured file_pattern file_filter ->
  let run := find paginate file_pattern progress file_filter max_count
               self base_dir in
  (forall key group,
      file_pattern key = Some group ->
      filter_passes file_filter group = Ok false ->
      ~ In key (map fst (yields run.1.1)))
  /\ num_filtered run.1.2
     = length (List.filter (fun k => negb (accepts k)) (examined run.1.1))
  /\ num_loaded run.1.2 = length (List.filter accepts (examined run.1.1))
  /\ (forall e, run.2 = Raised e ->
                In (Raise e)
                   (paginate (bucket_name self) (search_prefix self base_dir))).
Proof.
  intros Hcaptured run.
  destruct run as [[tr c] out] eqn:E. unfold run, find in E.
  apply (find_pages_counts Hcaptured _ []) in E as (-> & E2 & E3).
  simpl. repeat split; [|exact E3].
  intros key group Hm Hf Hin.
  apply in_map_iff in Hin as ([k g] & <- & Hin).
  rewrite Forall_forall in E2. apply list_elem_of_In, E2 in Hin.
  destruct Hin as [Hm' Hf']. simpl in *. congruence.
Qed.

Local Abbreviation entry := (entry_of file_pattern file_filter).
Lemma trace_nil : examined [] = [] /\ yields [] = [] /\ reports [] = [].
Proof. now repeat split. Qed.

Lemma omap_cons_eq {A B} (f : A -> option B) (x : A) (l : list A) :
  omap f (x :: l)
  = match f x with Some y => y :: omap f l | None => omap f l end.
Proof. reflexivity. Qed.

Lemma entry_no_match (key : string) :
  file_pattern key = None -> entry key = None.
Proof. intros H. unfold entry_of. now rewrite H. Qed.

Lemma entry_filter (key : string) (group : groupdict) (r : result bool) :
  file_pattern key = Some group ->
  filter_passes file_filter group = r ->
  entry key = match r with Ok true => Some (key, group) | _ => None end.
Proof. intros H1 H2. unfold entry_of. now rewrite H1, H2. Qed.

Lemma find_contents_entries (contents : list S3Object) (c c' : Counters)
    (tr : list Event) (sg : Signal) :
  find_contents contents c = (tr, c', sg) ->
  yields tr = omap entry (examined tr)
  /\ examined tr `prefix_of` map Key contents.
Proof.
  revert c c' tr sg.
  induction contents as [|obj rest IH]; intros c c' tr sg H.
  - injection H as <- _ _. split; [reflexivity|apply prefix_nil].
  - examine_inv H.
    all: try (destruct (find_contents rest _) as [[tr' c''] sg'] eqn:E;
              injection H as <- _ _; apply IH in E as [E1 E2]).
    all: try (injection H as <- _ _).
    all: autorewrite with trace; rewrite ?yields_report, ?examined_report;
      cbv beta iota;
      rewrite ?(proj1 trace_nil), ?(proj1 (proj2 trace_nil));
      cbn [app]; rewrite omap_cons_eq.
    all: try rewrite (entry_no_match _ Hm).
    all: try rewrite (entry_filter _ _ _ Hm Hf).
    all: split; [congruence || reflexivity|].
    all: try (now apply prefix_cons).
    all: apply prefix_cons, prefix_nil.
Qed.

Lemma find_pages_entries (pages : list (result Page)) (c c' : Counters)
    (tr : list Event) (out : Outcome) :
  find_pages pages c = (tr, c', out) ->
  yields tr = omap entry (examined tr)
  /\ examined tr `prefix_of` listed_keys pages.
Proof.
  revert c c' tr out.
  induction pages as [|p rest IH]; intros c c' tr out H.
  - injection H as <- _ _. split; [reflexivity|apply prefix_nil].
  - pages_inv H; autorewrite with trace; simpl.
    + pose proof (find_contents_examined _ _ _ _ E) as Hex.
      apply find_contents_entries in E as [E1 _].
      apply IH in E' as [E3 E4].
      rewrite omap_app, E1, E3, Hex. split; [reflexivity|].
      now apply prefix_app.
    + apply find_contents_entries in E as [E1 E2].
      split; [exact E1|]. now apply prefix_app_r.
    + apply find_contents_entries in E as [E1 E2].
      split; [exact E1|]. now apply prefix_app_r.
    + split; [reflexivity|apply prefix_nil].
Qed.

(** X8: the entries find yields are exactly the accepted keys among the
    keys it examined, in order, each with the groups of its match; the
    examined keys are an initial part of the listing, and all of it when
    the scan runs to the end. *)
Theorem find_yields_accepted_keys (paginate : Paginator) (self : t)
    (base_dir : option string) :
  let run := find paginate file_pattern progress file_filter max_count
               self base_dir in
  let listing :=
    listed_keys (paginate (bucket_name self) (search_prefix self base_dir)) in
  yields run.1.1 = omap entry (examined run.1.1)
  /\ examined run.1.1 `prefix_of` listing
  /\ (run.2 = Exhausted -> examined run.1.1 = listing).
Proof.
  intros run listing.
  destruct run as [[tr c] out] eqn:E. unfold run, find in E.
  destruct (find_pages_entries _ _ _ _ _ E) as [E1 E2].
  simpl. repeat split; [exact E1|exact E2|].
  intros ->. now apply find_pages_examined in E.
Qed.

Lemma find_contents_never_stops (contents : list S3Object) (c c' : Counters)
    (tr : list Event) :
  (max_count <= 0)%Z ->
  find_contents contents c <> (tr, c', Stop).
Proof.
  intros Hmax. revert c c' tr.
  induction contents as [|obj rest IH]; intros c c' tr H.
  - discriminate.
  - examine_inv H.
    all: try (destruct (find_contents rest _) as [[tr' c''] sg'] eqn:E;
              injection H as _ _ ->; exact (IH _ _ _ E)).
    all: try discriminate.
    apply andb_true_iff in Hn as [Hn _]. apply Z.ltb_lt in Hn. lia.
Qed.

Lemma find_pages_never_returns (pages : list (result Page)) (c c' : Counters)
    (tr : list Event) :
  (max_count <= 0)%Z ->
  find_pages pages c <> (tr, c', Returned).
Proof.
  intros Hmax. revert c c' tr.
  induction pages as [|p rest IH]; intros c c' tr H.
  - discriminate.
  - rewrite find_pages_cons in H. destruct p as [page|e]; [|discriminate].
    destruct (find_contents _ c) as [[tr1 c1] [| |e]] eqn:E.
    + destruct (find_pages rest c1) as [[tr2 c2] out2] eqn:E'.
      injection H as _ _ ->. exact (IH _ _ _ E').
    + exact (find_contents_never_stops _ _ _ _ Hmax E).
    + discriminate.
Qed.

Lemma find_contents_yield_count (contents : list S3Object) (c c' : Counters)
    (tr : list Event) (sg : Signal) :
  find_contents contents c = (tr, c', sg) ->
  num_loaded c' = num_loaded c + length (yields tr).
Proof.
  revert c c' tr sg.
  induction contents as [|obj rest IH]; intros c c' tr sg H.
  - injection H as <- <- _. simpl. lia.
  - examine_inv H.
    all: try (destruct (find_contents rest _) as [[tr' c''] sg'] eqn:E;
              injection H as <- <- _; apply IH in E).
    all: try (injection H as <- <- _).
    all: autorewrite with trace; rewrite ?yields_report; simpl in *; lia.
Qed.

Lemma find_pages_yield_count (pages : list (result Page)) (c c' : Counters)
    (tr : list Event) (out : Outcome) :
  find_pages pages c = (tr, c', out) ->
  num_loaded c' = num_loaded c + length (yields tr).
Proof.
  revert c c' tr out.
  induction pages as [|p rest IH]; intros c c' tr out H.
  - injection H as <- <- _. simpl. lia.
  - pages_inv H; autorewrite with trace; simpl.
    + apply find_contents_yield_count in E. apply IH in E'.
      rewrite length_app. lia.
    + now apply find_contents_yield_count in E.
    + now apply find_contents_yield_count in E.
    + lia.
Qed.

Lemma first_failure_none (pages : list (result Page)) (e : exn) :
  first_failure pages = None -> ~ In (Raise e) pages.
Proof.
  induction pages as [|[page|e'] rest IH]; simpl; intros H Hin.
  - exact Hin.
  - destruct Hin as [Hin|Hin]; [discriminate|now apply IH].
  - discriminate.
Qed.

(** X10: when every page of the listing is fetched and every group named
    by the filter is captured, find yields the accepted entries of the
    listing, in listing order and each with the groups of its match: all
    of them when max_count is zero or negative, and the first max_count of
    them when it is positive. *)
Theorem find_yields_first_accepted (paginate : Paginator) (self : t)
    (base_dir : option string) :
  let pages := paginate (bucket_name self) (search_prefix self base_dir) in
  first_failure pages = None ->
  filter_names_captured file_pattern file_filter ->
  let run := find paginate file_pattern progress file_filter max_count
               self base_dir in
  yields run.1.1
  = if (0 <? max_count)%Z
    then take (Z.to_nat max_count) (omap entry (listed_keys pages))
    else omap entry (listed_keys pages).
Proof.
  intros pages Hok Hcaptured run.
  destruct run as [[tr c] out] eqn:E. unfold run, find in E.
  change (find_pages pages
            {| num_loaded := 0; num_filtered := 0; num_total := 0 |}
          = (tr, c, out)) in E.
  simpl.
  destruct (find_pages_entries _ _ _ _ _ E) as [E1 [rest E2]].
  pose proof (find_pages_yield_count _ _ _ _ _ E) as Hcount. simpl in Hcount.
  assert (Hout : out <> Raised TypeError /\ forall e, out <> Raised e).
  { split; [|]; intros; intros ->.
    - apply (find_pages_counts Hcaptured _ []) in E as (_ & _ & E4).
      now apply (first_failure_none pages TypeError Hok), E4.
    - apply (find_pages_counts Hcaptured _ []) in E as (_ & _ & E4).
      now apply (first_failure_none pages e Hok), E4. }
  destruct Hout as [_ Hout].
  destruct (0 <? max_count)%Z eqn:Hpos.
  - apply Z.ltb_lt in Hpos.
    assert (Hzero : (Z.of_nat
                       (num_loaded {| num_loaded := 0; num_filtered := 0;
                                      num_total := 0 |}) < max_count)%Z)
      by (simpl; lia).
    pose proof (find_pages_loaded _ _ _ _ _ Hpos Hzero E) as [_ Hlast].
    destruct out as [| |e]; [| |now destruct (Hout e)].
    + apply find_pages_examined in E. rewrite E in E1.
      rewrite take_ge; [exact E1|]. rewrite <- E1. lia.
    + destruct Hlast as [Hn _]. rewrite E2, omap_app, <- E1.
      rewrite take_app_length'; [reflexivity|]. lia.
  - apply Z.ltb_ge in Hpos.
    destruct out as [| |e]; [| |now destruct (Hout e)].
    + apply find_pages_examined in E. now rewrite E in E1.
    + now apply find_pages_never_returns in E.
Qed.

End FindFacts.

Lemma filter_split_length {A} (f : A -> bool) (l : list A) :
  length (List.filter f l) + length (List.filter (fun x => negb (f x)) l)
  = length l.
Proof.
  induction l as [|x l IH]; [reflexivity|]. simpl.
  destruct (f x); simpl; lia.
Qed.

(** X11: every progress status find hands to the callback is complete:
    the n-th status has total_items = n and completed_items = n, so the
    callback never sees pending work, whatever the listing holds. *)
Theorem progress_status_is_complete {R : Regex} (paginate : Paginator)
    (file_pattern : Pattern) (r : ProgressReporter)
    (file_filter : option (list (string * string))) (max_count : Z)
    (self : S3PipelineStorage.t) (base_dir : option string) :
  let tr := (S3PipelineStorage.find paginate file_pattern (Some r) file_filter
               max_count self base_dir).1.1 in
  map total_items (reports tr) = seq 1 (length (reports tr))
  /\ map completed_items (reports tr) = seq 1 (length (reports tr)).
Proof.
  intros tr. unfold tr.
  destruct (S3PipelineStorage.find _ _ _ _ _ _ _) as [[tr0 c] out] eqn:E.
  unfold S3PipelineStorage.find in E.
  apply (find_pages_reports file_pattern (Some r) file_filter max_count r
           eq_refl _ []) in E as [E1 E2].
  simpl in *. clear tr.
  assert (Hlen : length (reports tr0) <= length (examined tr0))
    by (destruct out; lia).
  set (n := length (reports tr0)) in *. rewrite E1, !map_map.
  split; rewrite <- (map_id (seq 1 n)) at 2; apply map_ext_in;
    intros i Hi; apply in_seq in Hi; unfold status_of, counts_of; simpl.
  - apply length_take_le. lia.
  - rewrite filter_split_length. apply length_take_le. lia.
Qed.



(** *** find on concrete listings *)

(** C3, counterexample: with a filter entry that names a group the pattern
    does not have, the first matching key raises KeyError; with an entry
    that names a group left out of the match, TypeError.  Nothing is counted
    as filtered. *)
Lemma C3_missing_group_raises :
  @S3PipelineStorage.find literal_regex (fun _ _ => [page_of ["a.txt"]])
    whole_key None (Some [("year", "2023")]) (-1) docs_storage None
  = ([Fetch; Examine "a.txt"],
     {| num_loaded := 0; num_filtered := 0; num_total := 1 |},
     Raised (KeyError "year"))
  /\ @S3PipelineStorage.find literal_regex (fun _ _ => [page_of ["a.txt"]])
       optional_year None (Some [("year", "2023")]) (-1) docs_storage None
     = ([Fetch; Examine "a.txt"],
        {| num_loaded := 0; num_filtered := 0; num_total := 1 |},
        Raised TypeError).
Proof. split; reflexivity. Qed.

Lemma whole_key_captures_name (value : string) :
  filter_names_captured whole_key (Some [("name", value)]).
Proof.
  intros key group items name v Hm [= <-] [[= <- <-]|[]].
  injection Hm as <-. now exists key.
Qed.

(** C3, witness: two keys, a filter on the captured group that only the
    first passes. *)
Lemma C3_filter_witness :
  let run :=
    @S3PipelineStorage.find literal_regex
      (fun _ _ => [page_of ["a.txt"; "b.txt"]])
      whole_key None (Some [("name", "a")]) (-1) docs_storage None in
  filter_names_captured whole_key (Some [("name", "a")])
  /\ ~ In "b.txt" (map fst (yields run.1.1))
  /\ num_filtered run.1.2 = 1
  /\ run.2 = Exhausted.
Proof.
  pose proof (whole_key_captures_name "a") as Hcap.
  destruct (@C3_filtered_keys_are_skipped literal_regex whole_key None
              (Some [("name", "a")]) (-1)
              (fun _ _ => [page_of ["a.txt"; "b.txt"]]) docs_storage None Hcap)
    as (Hskip & Hfiltered & _ & _).
  split; [exact Hcap|]. split; [|split].
  - exact (Hskip "b.txt" [("name", Some "b.txt")] eq_refl eq_refl).
  - exact Hfiltered.
  - reflexivity.
Defined.


(** C5, witness: three matching keys on two pages and max_count = 1. *)
Lemma C5_max_count_witness :
  let run :=
    @S3PipelineStorage.find literal_regex
      (fun _ _ => [page_of ["a.txt"; "b.txt"]; page_of ["c.txt"]])
      whole_key (Some Reporter) None 1 docs_storage None in
  (0 < 1)%Z
  /\ (Z.of_nat (length (yields run.1.1)) <= 1)%Z
  /\ run.2 = Returned
  /\ exists tr0 key group, run.1.1 = tr0 ++ [Yield key group].
Proof.
  destruct (@C5_max_count_ends_scan literal_regex whole_key (Some Reporter)
              None 1
              (fun _ _ => [page_of ["a.txt"; "b.txt"]; page_of ["c.txt"]])
              docs_storage None eq_refl)
    as [Hle Hlast].
  split; [reflexivity|]. split; [exact Hle|]. exact (Hlast eq_refl).
Defined.

(** ** load: listing, per-file failures and the empty result *)

Section LoadFacts.

Import s3_text.
Context {C : Codecs} {R : Regex}.
Variable gen_md5_hash : Item -> list string -> string.
Variable paginate : Paginator.

Local Abbreviation load_file := (load_file gen_md5_hash).
Local Abbreviation load_files := (load_files gen_md5_hash).
Local Abbreviation row_of := (loaded gen_md5_hash).
Local Abbreviation failing := (fails gen_md5_hash).

Lemma same_service_refl (w : World) : same_service w w.
Proof. now split. Qed.

Lemma same_service_trans (w1 w2 w3 : World) :
  same_service w1 w2 -> same_service w2 w3 -> same_service w1 w3.
Proof. intros [H1 H2] [H3 H4]. split; congruence. Qed.

(** [load_file] reads the service and leaves it as it was; what it
    returns depends on the service only, and it logs no warning. *)
Lemma load_file_frame (bucket key : string) (group : option groupdict)
    (w : World) :
  same_service w (load_file bucket key group w).2
  /\ warnings (log (load_file bucket key group w).2) = warnings (log w)
  /\ forall w0, same_service w0 w ->
                (load_file bucket key group w0).1
                = (load_file bucket key group w).1.
Proof.
  unfold s3_text.load_file, try_except_ClientError, bind, s3.get_object,
    raise, ret, logging, warnings.
  split; [|split].
  - destruct (fault w bucket key) as [[code msg]|]; simpl; [now split|].
    destruct (objects w !! (bucket, key)) as [data|]; simpl; [|now split].
    now destruct (bytes_decode "utf-8" data).
  - destruct (fault w bucket key) as [[code msg]|]; simpl.
    { rewrite omap_app. simpl. now rewrite app_nil_r. }
    destruct (objects w !! (bucket, key)) as [data|]; simpl.
    + now destruct (bytes_decode "utf-8" data).
    + rewrite omap_app. simpl. now rewrite app_nil_r.
  - intros w0 [Ho Hf]. rewrite Ho, Hf.
    destruct (fault w bucket key) as [[code msg]|]; simpl; [reflexivity|].
    destruct (objects w !! (bucket, key)) as [data|]; simpl; [|reflexivity].
    now destruct (bytes_decode "utf-8" data).
Qed.

Lemma loaded_same_service (w0 w : World) (bucket : string)
    (file : string * groupdict) :
  same_service w0 w -> row_of w0 bucket file = row_of w bucket file.
Proof.
  intros H. unfold loaded.
  now rewrite (proj2 (proj2 (load_file_frame bucket file.1 (Some file.2) w))
                 w0 H).
Qed.

Lemma fails_same_service (w0 w : World) (bucket : string)
    (file : string * groupdict) :
  same_service w0 w -> failing w0 bucket file = failing w bucket file.
Proof.
  intros H. unfold fails. now rewrite (loaded_same_service w0 w).
Qed.

Lemma rows_same_service (w0 w : World) (bucket : string)
    (files : list (string * groupdict)) :
  same_service w0 w ->
  omap (row_of w0 bucket) files = omap (row_of w bucket) files
  /\ List.filter (failing w0 bucket) files = List.filter (failing w bucket) files.
Proof.
  intros H. induction files as [|f files [IH1 IH2]]; [now split|].
  change (omap ?g (f :: files))
    with (match g f with Some y => y :: omap g files | None => omap g files end).
  simpl.
  now rewrite (loaded_same_service w0 w), (fails_same_service w0 w), IH1, IH2.
Qed.

Lemma load_files_cons (bucket : string) (progress : option ProgressReporter)
    (file : string) (group : groupdict) (rest : list (string * groupdict))
    (acc : list Item) (w : World) :
  load_files bucket progress ((file, group) :: rest) acc w =
    match load_file bucket file (Some group) (told progress file w) with
    | (Ok item, w2) => load_files bucket progress rest (acc ++ [item]) w2
    | (Raise _, w2) =>
        load_files bucket progress rest acc
          (logging WARNING (skip_warning (file, group)) w2).2
    end.
Proof.
  simpl. unfold bind, try_except_Exception, told.
  destruct progress; simpl;
    now destruct (s3_text.load_file _ _ _ _ _) as [[item|e] w2].
Qed.

Lemma told_same_service (progress : option ProgressReporter)
    (file : string) (w : World) :
  same_service w (told progress file w)
  /\ log (told progress file w) = log w.
Proof. unfold told. now destruct progress. Qed.

(** The loading loop keeps exactly the rows of the files that load, in
    listing order, and logs one warning per file that does not. *)
Lemma load_files_spec (bucket : string) (progress : option ProgressReporter)
    (files : list (string * groupdict)) (acc : list Item) (w : World) :
  exists w',
    load_files bucket progress files acc w
    = (Ok (acc ++ omap (row_of w bucket) files), w')
    /\ same_service w w'
    /\ warnings (log w')
       = warnings (log w)
           ++ map skip_warning (List.filter (failing w bucket) files).
Proof.
  revert acc w. induction files as [|[file group] rest IH]; intros acc w.
  - exists w. simpl. rewrite !app_nil_r. repeat split.
  - rewrite load_files_cons.
    destruct (told_same_service progress file w) as [Hs1 Hl1].
    pose proof (load_file_frame bucket file (Some group)
                  (told progress file w)) as (Hs2 & Hl2 & Hr).
    assert (Hhead : row_of w bucket (file, group)
                    = match (load_file bucket file (Some group)
                               (told progress file w)).1 with
                      | Ok item => Some item
                      | Raise _ => None
                      end).
    { unfold loaded. simpl. now rewrite (Hr w Hs1). }
    destruct (load_file bucket file (Some group) (told progress file w))
      as [[item|e] w2] eqn:E; simpl in Hhead, Hs2, Hl2.
    + destruct (IH (acc ++ [item]) w2) as (w' & -> & Hs & Hl).
      assert (Hw : same_service w w2) by eauto using same_service_trans.
      destruct (rows_same_service w w2 bucket rest Hw) as [Hrows Hfail].
      exists w'. split; [|split].
      * change (omap ?g ((file, group) :: rest))
          with (match g (file, group) with
                | Some y => y :: omap g rest
                | None => omap g rest
                end).
        now rewrite Hhead, <- app_assoc, Hrows.
      * eauto using same_service_trans.
      * change (List.filter ?f ((file, group) :: rest))
          with (if f (file, group) then (file, group) :: List.filter f rest
                else List.filter f rest).
        unfold fails at 1. rewrite Hhead, Hl, Hl2, Hl1.
        now rewrite Hfail.
    + set (w3 := (logging WARNING (skip_warning (file, group)) w2).2).
      assert (Hw : same_service w w3)
        by (apply (same_service_trans _ w2);
            [eauto using same_service_trans | now split]).
      destruct (IH acc w3) as (w' & -> & Hs & Hl).
      destruct (rows_same_service w w3 bucket rest Hw) as [Hrows Hfail].
      exists w'. split; [|split].
      * change (omap ?g ((file, group) :: rest))
          with (match g (file, group) with
                | Some y => y :: omap g rest
                | None => omap g rest
                end).
        now rewrite Hhead, Hrows.
      * eauto using same_service_trans.
      * change (List.filter ?f ((file, group) :: rest))
          with (if f (file, group) then (file, group) :: List.filter f rest
                else List.filter f rest).
        unfold fails at 1. rewrite Hhead, Hl. simpl.
        unfold warnings at 1. rewrite omap_app. fold (warnings (log w2)).
        rewrite Hl2, Hl1, <- app_assoc. simpl. now rewrite Hfail.
Qed.

Lemma page_files_none (pattern : Pattern) (contents : list S3Object) :
  forallb (fun obj => negb (is_text_file pattern (Key obj))) contents = true ->
  page_files pattern contents = [].
Proof.
  induction contents as [|obj rest IH]; [reflexivity|].
  intros H. apply andb_true_iff in H as [Hobj Hrest].
  unfold page_files.
  change (omap ?g (obj :: rest))
    with (match g obj with Some y => y :: omap g rest | None => omap g rest end).
  fold (page_files pattern rest). rewrite (IH Hrest).
  unfold is_text_file in Hobj.
  destruct (PyStr.endswith ".txt" (Key obj)); [|reflexivity].
  now destruct (pattern (Key obj)).
Qed.

Lemma list_files_none (pattern : Pattern) (pages : list (result Page))
    (files : list (string * groupdict)) :
  no_text_files pattern pages = true ->
  list_files pattern pages files = Ok files.
Proof.
  revert files. induction pages as [|[page|e] rest IH]; intros files H.
  - reflexivity.
  - apply andb_true_iff in H as [Hpage Hrest]. simpl.
    rewrite (page_files_none _ _ Hpage), app_nil_r. now apply IH.
  - discriminate.
Qed.

Lemma load_valid (config : PipelineInputConfig)
    (progress : option ProgressReporter) :
  PyStr.truthy_opt (bucket_name config) = true ->
  PyStr.truthy_opt (base_prefix config) = true ->
  let bucket := default "" (bucket_name config) in
  let prefix := default "" (base_prefix config) in
  let pattern :=
    re_compile (PyStr.or_else (file_pattern config) DEFAULT_FILE_PATTERN) in
  load gen_md5_hash paginate config progress =
    try_except_ClientError
      (files <- lift (list_files pattern (paginate bucket prefix) []) ;;
       if Nat.eqb (length files) 0
       then raise (ValueError ("No text files found in S3 bucket "
                                 +:+ bucket +:+ " with prefix " +:+ prefix))
       else
         logging INFO ("Found " +:+ PyStr.of_nat (length files)
                         +:+ " text files in S3 bucket " +:+ bucket) ;;;
         files_loaded <- load_files bucket progress files [] ;;
         logging INFO ("Found " +:+ PyStr.of_nat (length files)
                         +:+ " files, loading "
                         +:+ PyStr.of_nat (length files_loaded)) ;;;
         ret files_loaded)%py
      (fun op code msg =>
         logging ERROR ("Error accessing S3: "
                          +:+ str_exn (ClientError op code msg)) ;;;
         raise (ClientError op code msg))%py.
Proof. intros Hb Hp. unfold load. now rewrite Hb, Hp. Qed.

Lemma load_rows (config : PipelineInputConfig)
    (progress : option ProgressReporter) (w : World)
    (files : list (string * groupdict)) :
  PyStr.truthy_opt (bucket_name config) = true ->
  PyStr.truthy_opt (base_prefix config) = true ->
  let bucket := default "" (bucket_name config) in
  let prefix := default "" (base_prefix config) in
  let pattern :=
    re_compile (PyStr.or_else (file_pattern config) DEFAULT_FILE_PATTERN) in
  list_files pattern (paginate bucket prefix) [] = Ok files ->
  files <> [] ->
  exists w',
    load gen_md5_hash paginate config progress w
    = (Ok (omap (row_of w bucket) files), w')
    /\ warnings (log w')
       = warnings (log w)
           ++ map skip_warning (List.filter (failing w bucket) files).
Proof.
  intros Hb Hp bucket prefix pattern Hlist Hne.
  rewrite (load_valid config progress Hb Hp).
  fold bucket prefix pattern. unfold try_except_ClientError, bind at 1, lift.
  rewrite Hlist. cbv beta iota.
  destruct (Nat.eqb_spec (length files) 0) as [Hlen|_];
    [now destruct files|].
  unfold bind at 1.
  set (w1 := (logging INFO ("Found " +:+ PyStr.of_nat (length files)
                              +:+ " text files in S3 bucket " +:+ bucket)
                w).2).
  change (logging INFO ("Found " +:+ PyStr.of_nat (length files)
                          +:+ " text files in S3 bucket " +:+ bucket) w)
    with (Ok tt, w1).
  cbv beta iota. unfold bind at 1.
  assert (Hw1 : same_service w w1) by now split.
  destruct (load_files_spec bucket progress files [] w1)
    as (w' & -> & Hs & Hl).
  destruct (rows_same_service w w1 bucket files Hw1) as [Hrows Hfail].
  cbv beta iota. unfold bind, logging, ret.
  eexists. split; [now rewrite Hrows|].
  cbn [log]. unfold warnings at 1. rewrite omap_app.
  fold (warnings (log w')). rewrite Hl, Hfail.
  unfold w1, logging. cbn [snd log]. unfold warnings at 1.
  rewrite omap_app. fold (warnings (log w)). simpl.
  now rewrite !app_nil_r.
Qed.


(** C10: when every page of the listing under the configured base prefix
    is fetched and no key both ends in ".txt" and matches the file
    pattern, the S3 text input load raises a ValueError whose message names
    the bucket and the prefix, and returns no result. *)
Theorem C10_no_text_files_is_an_error (config : PipelineInputConfig)
    (progress : option ProgressReporter) (w : World) :
  PyStr.truthy_opt (bucket_name config) = true ->
  PyStr.truthy_opt (base_prefix config) = true ->
  let bucket := default "" (bucket_name config) in
  let prefix := default "" (base_prefix config) in
  let pattern :=
    re_compile (PyStr.or_else (file_pattern config) DEFAULT_FILE_PATTERN) in
  no_text_files pattern (paginate bucket prefix) = true ->
  load gen_md5_hash paginate config progress w
  = (Raise (ValueError ("No text files found in S3 bucket " +:+ bucket
                          +:+ " with prefix " +:+ prefix)),
     w).
Proof.
  intros Hb Hp bucket prefix pattern Hnone.
  rewrite (load_valid config progress Hb Hp).
  fold bucket prefix pattern. unfold try_except_ClientError, bind, lift.
  now rewrite (list_files_none _ _ [] Hnone).
Qed.


Lemma dict_get_set_eq {V} (d : list (string * V)) (k : string) (v : V) :
  dict_get (dict_set d k v) k = Some v.
Proof.
  induction d as [|[k' v'] d IH]; simpl.
  - now rewrite String.eqb_refl.
  - destruct (String.eqb k' k) eqn:E; simpl; now rewrite E.
Qed.

Lemma dict_get_set_ne {V} (d : list (string * V)) (k k' : string) (v : V) :
  k <> k' -> dict_get (dict_set d k v) k' = dict_get d k'.
Proof.
  intros Hne. induction d as [|[k0 v0] d IH]; simpl.
  - apply String.eqb_neq in Hne. now rewrite Hne.
  - destruct (String.eqb k0 k) eqn:E; simpl; [|now rewrite IH].
    apply String.eqb_eq in E as ->. apply String.eqb_neq in Hne.
    now rewrite Hne.
Qed.

(** X12: a row that load_file returns holds the decoded text of the
    object under "text", the last path component of the key under "title"
    and, under "id", the digest of the capture groups and the text taken
    before id and title are added; every capture group with another name
    is kept as it was matched. *)
Theorem load_file_row (bucket key : string) (group : groupdict) (w : World)
    (item : Item) :
  (load_file bucket key (Some group) w).1 = Ok item ->
  exists data text,
    objects w !! (bucket, key) = Some data
    /\ bytes_decode "utf-8" data = Some text
    /\ dict_get item "text" = Some (Some text)
    /\ dict_get item "title" = Some (Some (PyStr.basename key))
    /\ dict_get item "id"
       = Some (Some (gen_md5_hash
                       (dict_set group "text" (Some text))
                       (map fst (dict_set group "text" (Some text)))))
    /\ forall name,
         name <> "text" -> name <> "id" -> name <> "title" ->
         dict_get item name = dict_get group name.
Proof.
  unfold s3_text.load_file, try_except_ClientError, bind, s3.get_object,
    raise, ret, logging. simpl.
  destruct (fault w bucket key) as [[code msg]|]; [discriminate|].
  destruct (objects w !! (bucket, key)) as [data|] eqn:Hobj; [|discriminate].
  destruct (bytes_decode "utf-8" data) as [text|] eqn:Htext; [|discriminate].
  simpl. intros [= <-]. exists data, text.
  split; [reflexivity|]. split; [exact Htext|]. repeat split.
  - rewrite !dict_get_set_ne by discriminate. apply dict_get_set_eq.
  - apply dict_get_set_eq.
  - rewrite dict_get_set_ne by discriminate. apply dict_get_set_eq.
  - intros name H1 H2 H3. now rewrite !dict_get_set_ne by congruence.
Qed.

Lemma load_file_effects (bucket key : string) (group : option groupdict)
    (w : World) :
  calls (load_file bucket key group w).2 = calls w ++ [GetObject bucket key]
  /\ reported (load_file bucket key group w).2 = reported w.
Proof.
  unfold s3_text.load_file, try_except_ClientError, bind, s3.get_object,
    raise, ret, logging.
  destruct (fault w bucket key) as [[code msg]|]; simpl; [now split|].
  destruct (objects w !! (bucket, key)) as [data|]; simpl; [|now split].
  now destruct (bytes_decode "utf-8" data).
Qed.

(** The requests and the progress messages of the loading loop. *)
Lemma load_files_effects (bucket : string) (progress : option ProgressReporter)
    (files : list (string * groupdict)) (acc : list Item) (w : World) :
  calls (load_files bucket progress files acc w).2
  = calls w ++ map (fun f => GetObject bucket f.1) files
  /\ reported (load_files bucket progress files acc w).2
     = reported w
         ++ match progress with
            | Some _ => map (fun f => "Loading file: " +:+ f.1) files
            | None => []
            end.
Proof.
  revert acc w. induction files as [|[file group] rest IH]; intros acc w.
  - simpl. destruct progress; now rewrite !app_nil_r.
  - rewrite load_files_cons.
    destruct (load_file_effects bucket file (Some group) (told progress file w))
      as [Hc Hr].
    assert (Ht : calls (told progress file w) = calls w
                 /\ reported (told progress file w)
                    = reported w
                        ++ match progress with
                           | Some _ => ["Loading file: " +:+ file]
                           | None => []
                           end).
    { unfold told. destruct progress; simpl; [now split|].
      now rewrite app_nil_r. }
    destruct Ht as [Htc Htr].
    destruct (load_file bucket file (Some group) (told progress file w))
      as [[item|e] w2]; simpl in Hc, Hr.
    + destruct (IH (acc ++ [item]) w2) as [IH1 IH2].
      rewrite IH1, IH2, Hc, Hr, Htc, Htr, <- !app_assoc.
      split; [reflexivity|]. now destruct progress.
    + destruct (IH acc (logging WARNING (skip_warning (file, group)) w2).2)
        as [IH1 IH2].
      rewrite IH1, IH2. simpl. rewrite Hc, Hr, Htc, Htr, <- !app_assoc.
      split; [reflexivity|]. now destruct progress.
Qed.

(** The files the listing loop of [load] collects, none when the listing
    fails. *)
Local Abbreviation listed_files config :=
  (match list_files
           (re_compile (PyStr.or_else (file_pattern config)
                          DEFAULT_FILE_PATTERN))
           (paginate (default "" (bucket_name config))
              (default "" (base_prefix config))) [] with
   | Ok files => files
   | Raise _ => []
   end).

Lemma load_effects (config : PipelineInputConfig)
    (progress : option ProgressReporter) (w : World) :
  PyStr.truthy_opt (bucket_name config) = true ->
  PyStr.truthy_opt (base_prefix config) = true ->
  let bucket := default "" (bucket_name config) in
  exists r w',
    load gen_md5_hash paginate config progress w = (r, w')
    /\ same_service w w'
    /\ calls w'
       = calls w ++ map (fun f => GetObject bucket f.1) (listed_files config)
    /\ reported w'
       = reported w
           ++ match progress with
              | Some _ =>
                  map (fun f => "Loading file: " +:+ f.1)
                    (listed_files config)
              | None => []
              end.
Proof.
  intros Hb Hp bucket.
  rewrite (load_valid config progress Hb Hp). fold bucket.
  unfold try_except_ClientError, bind at 1, lift.
  destruct (list_files _ _ []) as [files|e] eqn:Hlist.
  - cbv beta iota. destruct (Nat.eqb_spec (length files) 0) as [Hlen|Hlen].
    + destruct files; [|discriminate]. eexists _, w.
      split; [reflexivity|].
      destruct progress; simpl; rewrite ?app_nil_r; now repeat split.
    + unfold bind at 1.
      set (w1 := (logging INFO ("Found " +:+ PyStr.of_nat (length files)
                                  +:+ " text files in S3 bucket " +:+ bucket)
                    w).2).
      change (logging INFO ("Found " +:+ PyStr.of_nat (length files)
                              +:+ " text files in S3 bucket " +:+ bucket) w)
        with (Ok tt, w1).
      cbv beta iota. unfold bind at 1.
      destruct (load_files_spec bucket progress files [] w1)
        as (w' & Hrun & [Ho Hf] & _).
      destruct (load_files_effects bucket progress files [] w1) as [Hc Hr].
      rewrite Hrun in Hc, Hr |- *. simpl in Hc, Hr.
      cbv beta iota. unfold bind, logging, ret.
      eexists _, _. split; [reflexivity|]. simpl.
      repeat split; assumption.
  - destruct e; (eexists _, _; split; [reflexivity|]);
      destruct progress; simpl; rewrite ?app_nil_r; now repeat split.
Qed.


(** X15: without a bucket name or without a base prefix (absent or empty)
    load raises a ValueError at once: the service is not contacted, nothing
    is logged and nothing is reported. *)
Theorem load_requires_bucket_and_prefix (config : PipelineInputConfig)
    (progress : option ProgressReporter) (w : World) :
  PyStr.truthy_opt (bucket_name config) = false
  \/ PyStr.truthy_opt (base_prefix config) = false ->
  load gen_md5_hash paginate config progress w
  = (Raise (ValueError
              "S3 bucket name and base prefix are required for S3 input"),
     w).
Proof.
  intros H. unfold load.
  destruct H as [-> | ->]; [reflexivity|].
  now rewrite orb_true_r.
Qed.

End LoadFacts.

(** *** load on a concrete bucket *)


(** C10, witness: the listing holds a key that is not a ".txt" file and a
    ".txt" key that does not match the pattern. *)
Lemma C10_no_text_files_witness :
  PyStr.truthy_opt (s3_text.bucket_name docs_input) = true
  /\ PyStr.truthy_opt (s3_text.base_prefix docs_input) = true
  /\ no_text_files (@re_compile literal_regex "docs/") (no_texts "b" "docs")
     = true
  /\ @s3_text.load ascii_codecs literal_regex joined_values no_texts
       docs_input None two_texts
     = (Raise (ValueError "No text files found in S3 bucket b with prefix docs"),
        two_texts).
Proof.
  split; [reflexivity|]. split; [reflexivity|]. split; [reflexivity|].
  exact (@C10_no_text_files_is_an_error ascii_codecs literal_regex
           joined_values no_texts docs_input None two_texts
           eq_refl eq_refl eq_refl).
Defined.

(** ** Further properties of the storage operations *)

Section StorageComposition.

Import S3PipelineStorage.
Context {C : Codecs}.

Lemma has_unfold (self : t) (key : string) (w : World) :
  has self key w =
    (Ok (match fault w (bucket_name self) (full_key (base_prefix self) key) with
         | Some _ => false
         | None =>
             match objects w !! (bucket_name self,
                                 full_key (base_prefix self) key) with
             | Some _ => true
             | None => false
             end
         end),
     record_call (HeadObject (bucket_name self)
                    (full_key (base_prefix self) key)) w).
Proof.
  unfold has, try_except_ClientError, bind, s3.head_object, ret.
  fold (full_key (base_prefix self) key).
  destruct (fault w _ _) as [[code msg]|]; [reflexivity|].
  now destruct (objects w !! _).
Qed.

(** X1: after a successful set(k, v), has(k) on the same instance answers
    true, for every key: both resolve the key the same way. *)
Theorem set_then_has (self : t) (key : string) (v : Value)
    (encoding : option string) (w w' : World) :
  set self key v encoding w = (Ok tt, w') ->
  (has self key w').1 = Ok true.
Proof.
  intros Hset. rewrite set_unfold in Hset.
  destruct (body_of v encoding) as [body|] eqn:Hbody; [|discriminate].
  unfold s3.put_object in Hset.
  destruct (fault w _ _) as [[code msg]|] eqn:Hfault; [discriminate|].
  injection Hset as <-. rewrite has_unfold. simpl.
  now rewrite Hfault, lookup_insert_eq.
Qed.

(** X2: after a successful delete(k), has(k) answers false, and deleting
    the key again succeeds as well and leaves the bucket as it is; delete
    does not ask whether the object exists. *)
Theorem delete_then_has (self : t) (key : string) (w w' : World) :
  delete self key w = (Ok tt, w') ->
  (has self key w').1 = Ok false
  /\ exists w'', delete self key w' = (Ok tt, w'')
                 /\ objects w'' = objects w'.
Proof.
  unfold delete, s3.delete_object.
  fold (full_key (base_prefix self) key).
  destruct (fault w _ _) as [[code msg]|] eqn:Hfault; [discriminate|].
  intros [= <-]. split.
  - rewrite has_unfold. simpl. now rewrite Hfault, lookup_delete_eq.
  - simpl. rewrite Hfault. eexists. split; [reflexivity|]. simpl.
    apply delete_id, lookup_delete_eq.
Qed.

(** X3: set and delete change the bucket at the resolved full key only:
    every other object, in this bucket or another, stays as it was, whether
    the operation succeeds or not. *)
Theorem set_delete_frame (self : t) (key : string) (v : Value)
    (encoding : option string) (w : World) (loc : string * string) :
  loc <> (bucket_name self, full_key (base_prefix self) key) ->
  objects (set self key v encoding w).2 !! loc = objects w !! loc
  /\ objects (delete self key w).2 !! loc = objects w !! loc.
Proof.
  intros Hloc. split.
  - rewrite set_unfold. destruct (body_of v encoding) as [body|]; [|reflexivity].
    unfold s3.put_object.
    destruct (fault w _ _) as [[code msg]|]; [reflexivity|]. simpl.
    now rewrite lookup_insert_ne.
  - unfold delete, s3.delete_object.
    fold (full_key (base_prefix self) key).
    destruct (fault w _ _) as [[code msg]|]; [reflexivity|]. simpl.
    now rewrite lookup_delete_ne.
Qed.

(** X4: a value set under another key does not change what get returns:
    when the key set resolves to a full key other than the one get reads,
    get answers as it did before the set. *)
Theorem get_after_other_set (self : t) (key other : string) (v : Value)
    (encoding enc : option string) (as_bytes : option bool) (w : World) :
  full_key (base_prefix self) other <> collapsed_key (base_prefix self) key ->
  (get self key as_bytes enc (set self other v encoding w).2).1
  = (get self key as_bytes enc w).1.
Proof.
  intros Hne. rewrite !get_unfold.
  assert (Hobj : objects (set self other v encoding w).2
                   !! (bucket_name self, collapsed_key (base_prefix self) key)
                 = objects w
                   !! (bucket_name self, collapsed_key (base_prefix self) key)).
  { apply set_delete_frame. congruence. }
  assert (Hfault : fault (set self other v encoding w).2 = fault w).
  { rewrite set_unfold. destruct (body_of v encoding); [|reflexivity].
    unfold s3.put_object. now destruct (fault w _ _) as [[code msg]|]. }
  unfold s3.get_object. rewrite Hfault, Hobj.
  destruct (fault w _ _) as [[code msg]|].
  - now destruct (String.eqb code "NoSuchKey").
  - destruct (objects w !! _) as [data|]; [|reflexivity].
    destruct (default false as_bytes); [reflexivity|].
    now destruct (bytes_decode _ data).
Qed.

(** X5: scopes nest.  For two instances on the same bucket, one with base
    prefix p and one with base prefix p + "/" + name (just name when p is
    empty) for a non-empty name, set, has and delete through the second act
    exactly as the same operation through the first on the key
    name + "/" + key. *)
Theorem nested_prefix_scope (parent kid : t) (name : string) :
  name <> "" ->
  bucket_name kid = bucket_name parent ->
  base_prefix kid = full_key (base_prefix parent) name ->
  forall key v encoding w,
    set kid key v encoding w = set parent (name +:+ "/" +:+ key) v encoding w
    /\ has kid key w = has parent (name +:+ "/" +:+ key) w
    /\ delete kid key w = delete parent (name +:+ "/" +:+ key) w.
Proof.
  intros Hname Hbucket Hprefix.
  assert (Hkey : forall key,
             full_key (base_prefix kid) key
             = full_key (base_prefix parent) (name +:+ "/" +:+ key)).
  { intros key. rewrite Hprefix. unfold full_key.
    apply truthy_nonempty in Hname.
    destruct (PyStr.truthy (base_prefix parent)) eqn:Hbp.
    - replace (PyStr.truthy (base_prefix parent +:+ "/" +:+ name)) with true
        by now destruct (base_prefix parent).
      now rewrite !app_assoc_str.
    - now rewrite Hname. }
  intros key v encoding w. repeat split.
  - now rewrite !set_unfold, Hkey, Hbucket.
  - now rewrite !has_unfold, Hkey, Hbucket.
  - unfold delete.
    fold (full_key (base_prefix kid) key).
    fold (full_key (base_prefix parent) (name +:+ "/" +:+ key)).
    now rewrite Hkey, Hbucket.
Qed.

End StorageComposition.

(** ** clear *)

Section ClearFacts.

Local Abbreviation bucket_name := S3PipelineStorage.bucket_name.
Local Abbreviation base_prefix := S3PipelineStorage.base_prefix.

Lemma bool_decide_ext_if {A} (P Q : Prop) `{Decision P, Decision Q}
    (x y : A) :
  (P <-> Q) ->
  (if bool_decide P then x else y) = (if bool_decide Q then x else y).
Proof. intros HPQ. now rewrite (bool_decide_ext P Q HPQ). Qed.

Lemma batch_lookup (w : World) (bucket : string) (keys : list string)
    (m : gmap (string * string) bytes) (b : string) (k : string) :
  foldr (fun k m =>
           match fault w bucket k with
           | Some _ => m
           | None => delete (bucket, k) m
           end) m keys !! (b, k)
  = if bool_decide (b = bucket /\ k ∈ keys /\ fault w bucket k = None)
    then None else m !! (b, k).
Proof.
  induction keys as [|k0 keys IH]; simpl.
  - rewrite bool_decide_eq_false_2; [reflexivity|].
    intros (_ & Hin & _). now apply elem_of_nil in Hin.
  - destruct (fault w bucket k0) as [[code msg]|] eqn:Hf.
    + rewrite IH. apply bool_decide_ext_if. split.
      * intros (? & ? & ?). repeat split; auto. apply elem_of_cons. now right.
      * intros (Hb & Hin & Hk). repeat split; auto.
        apply elem_of_cons in Hin as [->|Hin]; [congruence|assumption].
    + destruct (decide ((b, k) = (bucket, k0))) as [[= -> ->]|Hne].
      * rewrite lookup_delete_eq, bool_decide_eq_true_2; [reflexivity|].
        repeat split; auto. apply elem_of_cons. now left.
      * rewrite lookup_delete_ne, IH by congruence.
        apply bool_decide_ext_if. split.
        -- intros (? & ? & ?). repeat split; auto.
           apply elem_of_cons. now right.
        -- intros (Hb & Hin & Hk). repeat split; auto.
           apply elem_of_cons in Hin as [->|Hin]; [congruence|assumption].
Qed.

Lemma clear_pages_spec (bucket : string) (pages : list (result Page))
    (bw : BatchWorld) :
  let refuse := refused bw bucket in
  let run := Bulk.clear_pages bucket pages bw in
  run.1 = match refusal refuse (due_requests pages) with
          | Some (_, (code, msg)) =>
              Raise (ClientError "DeleteObjects" code msg)
          | None =>
              match first_failure pages with
              | Some e => Raise e
              | None => Ok tt
              end
          end
  /\ refused run.2 = refused bw
  /\ fault (world run.2) = fault (world bw)
  /\ calls (world run.2) = calls (world bw)
  /\ log (world run.2) = log (world bw)
  /\ reported (world run.2) = reported (world bw)
  /\ (forall b k,
        objects (world run.2) !! (b, k)
        = if bool_decide (b = bucket
                          /\ k ∈ concat (granted refuse (due_requests pages))
                          /\ fault (world bw) bucket k = None)
          then None else objects (world bw) !! (b, k))
  /\ batches run.2
     = batches bw
         ++ map (fun keys => (bucket, keys))
              (granted refuse (due_requests pages)
                 ++ match refusal refuse (due_requests pages) with
                    | Some (keys, _) => [keys]
                    | None => []
                    end).
Proof.
  cbv zeta. revert bw.
  induction pages as [|[page|e] rest IH]; intros bw.
  - simpl. rewrite app_nil_r. repeat split. intros b k.
    rewrite bool_decide_eq_false_2; [reflexivity|].
    intros (_ & Hin & _). now apply elem_of_nil in Hin.
  - unfold due_requests. cbn [page_keys Bulk.clear_pages first_failure].
    fold (due_requests rest).
    destruct (map Key (default [] (Contents page))) as [|k0 keys] eqn:Hkeys.
    + cbn [List.filter]. fold (due_requests rest). exact (IH bw).
    + cbn [List.filter granted refusal]. fold (due_requests rest).
      unfold Bulk.delete_objects.
      destruct (refused bw bucket (k0 :: keys)) as [[code msg]|] eqn:Href.
      * cbn [fst snd world batches refused concat app map]. repeat split.
        intros b k. rewrite bool_decide_eq_false_2; [reflexivity|].
        intros (_ & Hin & _). now apply elem_of_nil in Hin.
      * match goal with
        | |- context [Bulk.clear_pages bucket rest ?x] => set (bw' := x)
        end.
        destruct (IH bw') as (H1 & H2 & H3 & H4 & H5 & H6 & H7 & H8).
        unfold bw' in H1, H2, H3, H4, H5, H6, H7, H8.
        cbn [world batches refused fault objects calls log reported]
          in H1, H2, H3, H4, H5, H6, H7, H8.
        fold bw' in H1, H2, H3, H4, H5, H6, H7, H8.
        repeat split; try assumption.
        -- intros b k. rewrite H7, batch_lookup.
           cbn [concat]. set (done := concat _).
           destruct (bool_decide (b = bucket /\ k ∈ done /\ _)) eqn:E1.
           ++ apply bool_decide_eq_true in E1 as (? & ? & ?).
              rewrite bool_decide_eq_true_2; [reflexivity|].
              repeat split; auto. apply elem_of_app. now right.
           ++ apply bool_decide_eq_false in E1. apply bool_decide_ext_if. split.
              ** intros (? & ? & ?). repeat split; auto.
                 apply elem_of_app. now left.
              ** intros (Hb & Hin & Hk). repeat split; auto.
                 apply elem_of_app in Hin as [Hin|Hin]; [assumption|].
                 exfalso. apply E1. now repeat split.
        -- rewrite H8. cbn [app map]. now rewrite <- app_assoc.
  - simpl. rewrite app_nil_r. repeat split. intros b k.
    rewrite bool_decide_eq_false_2; [reflexivity|].
    intros (_ & Hin & _). now apply elem_of_nil in Hin.
Qed.

(** X6: clear ends with the error of the first DeleteObjects request the
    service refuses; when none is refused it ends with the first failure of
    the listing, or normally when there is none.  It removes from the bucket
    exactly the keys of the requests granted up to there that the service
    lets it delete; every other object, and every other bucket, is left as
    it was. *)
Theorem clear_removes_listed_keys (paginate : Paginator)
    (self : S3PipelineStorage.t) (bw : BatchWorld) :
  let pages := paginate (bucket_name self) (base_prefix self) in
  let refuse := refused bw (bucket_name self) in
  let run := Bulk.clear paginate self bw in
  run.1 = match refusal refuse (due_requests pages) with
          | Some (_, (code, msg)) =>
              Raise (ClientError "DeleteObjects" code msg)
          | None =>
              match first_failure pages with
              | Some e => Raise e
              | None => Ok tt
              end
          end
  /\ forall b k,
       objects (world run.2) !! (b, k)
       = if bool_decide (b = bucket_name self
                         /\ k ∈ concat (granted refuse (due_requests pages))
                         /\ fault (world bw) (bucket_name self) k = None)
         then None else objects (world bw) !! (b, k).
Proof.
  intros pages refuse run.
  destruct (clear_pages_spec (bucket_name self) pages bw)
    as (H1 & _ & _ & _ & _ & _ & H7 & _).
  now split.
Qed.

Lemma due_requests_none (pages : list (result Page)) :
  listed_keys pages = [] -> due_requests pages = [].
Proof.
  unfold due_requests.
  induction pages as [|[page|e] rest IH]; simpl; intros H; try reflexivity.
  apply app_eq_nil in H as [Hp Hr]. rewrite Hp. simpl. now apply IH.
Qed.

(** X7: clear sends one DeleteObjects request for each listed page that
    holds keys, with the keys of that page and in listing order, and none
    for a page without keys; the first request the service refuses is the
    last one it sends.  On a scope without keys it sends nothing and leaves
    the world untouched. *)
Theorem clear_batches (paginate : Paginator) (self : S3PipelineStorage.t)
    (bw : BatchWorld) :
  let pages := paginate (bucket_name self) (base_prefix self) in
  let refuse := refused bw (bucket_name self) in
  let run := Bulk.clear paginate self bw in
  batches run.2
  = batches bw
      ++ map (fun keys => (bucket_name self, keys))
           (granted refuse (due_requests pages)
              ++ match refusal refuse (due_requests pages) with
                 | Some (keys, _) => [keys]
                 | None => []
                 end)
  /\ (listed_keys pages = [] -> run.2 = bw).
Proof.
  intros pages refuse run. unfold run, Bulk.clear. fold pages.
  destruct (clear_pages_spec (bucket_name self) pages bw)
    as (_ & H2 & H3 & H4 & H5 & H6 & H7 & H8).
  cbv zeta in H2, H3, H4, H5, H6, H7, H8. fold refuse in H7, H8.
  set (after := Bulk.clear_pages (bucket_name self) pages bw) in *.
  split; [exact H8|]. intros Hnone.
  assert (Hb : batches after.2 = batches bw).
  { rewrite H8, (due_requests_none _ Hnone). simpl. now rewrite app_nil_r. }
  assert (Ho : objects (world after.2) = objects (world bw)).
  { apply map_eq. intros [b k]. rewrite H7, (due_requests_none _ Hnone).
    rewrite bool_decide_eq_false_2; [reflexivity|].
    intros (_ & Hin & _). now apply elem_of_nil in Hin. }
  clearbody after. clear H7 H8.
  destruct after as [res [[o f c l r] bs rf]], bw as [[o0 f0 c0 l0 r0] bs0 rf0].
  simpl in *. now subst.
Qed.

End ClearFacts.

(** *** Further properties on concrete stores and listings *)

(** X1, witness: text set under "docs" at "a.txt". *)
Lemma set_then_has_witness :
  (S3PipelineStorage.has docs_storage "a.txt"
     (@S3PipelineStorage.set ascii_codecs docs_storage "a.txt" (VStr "hi")
        None (world_of [])).2).1
  = Ok true.
Proof.
  exact (@set_then_has ascii_codecs docs_storage "a.txt" (VStr "hi") None
           (world_of []) _ eq_refl).
Defined.

(** X2, witness: an object of the bucket with two texts is deleted. *)
Lemma delete_then_has_witness :
  (S3PipelineStorage.has docs_storage "a.txt"
     (S3PipelineStorage.delete docs_storage "a.txt" two_texts).2).1
  = Ok false.
Proof.
  exact (proj1 (delete_then_has docs_storage "a.txt" two_texts _ eq_refl)).
Defined.

(** X3, witness: setting "a.txt" leaves the object at "docs/c.txt". *)
Lemma set_delete_frame_witness :
  ("b", "docs/c.txt") <> ("b", "docs/a.txt")
  /\ objects (@S3PipelineStorage.set ascii_codecs docs_storage "a.txt"
                (VStr "zz") None two_texts).2 !! ("b", "docs/c.txt")
     = Some (String.list_byte_of_string "yo").
Proof.
  assert (Hne : ("b", "docs/c.txt") <> ("b", "docs/a.txt")) by discriminate.
  split; [exact Hne|].
  exact (proj1 (@set_delete_frame ascii_codecs docs_storage "a.txt" (VStr "zz")
                  None two_texts ("b", "docs/c.txt") Hne)).
Defined.

(** X4, witness: get of "c.txt" after a set of "a.txt". *)
Lemma get_after_other_set_witness :
  (@S3PipelineStorage.get ascii_codecs docs_storage "c.txt" (Some false) None
     (@S3PipelineStorage.set ascii_codecs docs_storage "a.txt" (VStr "zz")
        None two_texts).2).1
  = Ok (Some (VStr "yo")).
Proof.
  assert (Hne : full_key "docs" "a.txt" <> collapsed_key "docs" "c.txt")
    by (vm_compute; discriminate).
  exact (@get_after_other_set ascii_codecs docs_storage "c.txt" "a.txt"
           (VStr "zz") None None (Some false) two_texts Hne).
Defined.

(** X5, witness: the storage under "docs/out" and the one under "docs",
    on the bucket with two texts. *)
Lemma nested_prefix_scope_witness :
  @S3PipelineStorage.set ascii_codecs out_storage "x.txt" (VStr "hi") None
    two_texts
  = @S3PipelineStorage.set ascii_codecs docs_storage
      ("out" +:+ "/" +:+ "x.txt") (VStr "hi") None two_texts
  /\ S3PipelineStorage.has out_storage "x.txt" two_texts
     = S3PipelineStorage.has docs_storage ("out" +:+ "/" +:+ "x.txt") two_texts
  /\ S3PipelineStorage.delete out_storage "x.txt" two_texts
     = S3PipelineStorage.delete docs_storage ("out" +:+ "/" +:+ "x.txt")
         two_texts.
Proof.
  assert (Hname : "out" <> "") by discriminate.
  exact (@nested_prefix_scope ascii_codecs docs_storage out_storage "out"
           Hname eq_refl eq_refl "x.txt" (VStr "hi") None two_texts).
Defined.

Lemma no_filter_captured (file_pattern : Pattern) :
  filter_names_captured file_pattern None.
Proof. intros key group items name value _ H. discriminate H. Qed.

(** X10, witness: three matching keys and max_count = 2. *)
Lemma find_yields_first_accepted_witness :
  yields (@S3PipelineStorage.find literal_regex three_keys whole_key None None
            2 docs_storage None).1.1
  = [("docs/a.txt", [("name", Some "docs/a.txt")]);
     ("docs/b.txt", [("name", Some "docs/b.txt")])].
Proof.
  exact (@find_yields_first_accepted literal_regex whole_key None None 2
           three_keys docs_storage None eq_refl (no_filter_captured whole_key)).
Defined.

(** X12, witness: the row of "docs/a.txt". *)
Lemma load_file_row_witness :
  exists data text,
    objects two_texts !! ("b", "docs/a.txt") = Some data
    /\ @bytes_decode ascii_codecs "utf-8" data = Some text
    /\ dict_get [("text", Some "hi"); ("id", Some "hi");
                 ("title", Some "a.txt")] "text" = Some (Some text)
    /\ dict_get [("text", Some "hi"); ("id", Some "hi");
                 ("title", Some "a.txt")] "title"
       = Some (Some (PyStr.basename "docs/a.txt"))
    /\ dict_get [("text", Some "hi"); ("id", Some "hi");
                 ("title", Some "a.txt")] "id"
       = Some (Some (joined_values (dict_set [] "text" (Some text))
                       (map fst (dict_set [] "text" (Some text)))))
    /\ forall name,
         name <> "text" -> name <> "id" -> name <> "title" ->
         dict_get [("text", Some "hi"); ("id", Some "hi");
                   ("title", Some "a.txt")] name
         = dict_get ([] : groupdict) name.
Proof.
  exact (@load_file_row ascii_codecs joined_values "b" "docs/a.txt" []
           two_texts _ eq_refl).
Defined.


(** X15, witness: a configuration without a base prefix. *)
Lemma load_requires_bucket_and_prefix_witness :
  @s3_text.load ascii_codecs literal_regex joined_values three_keys
    no_prefix_input None two_texts
  = (Raise (ValueError
              "S3 bucket name and base prefix are required for S3 input"),
     two_texts).
Proof.
  exact (@load_requires_bucket_and_prefix ascii_codecs literal_regex
           joined_values three_keys no_prefix_input None two_texts
           (or_intror eq_refl)).
Defined.

(** clear on a bucket with an object under "docs" and one elsewhere, with
    a listing of two pages of keys around a page without contents: two
    requests, the listed object is gone and the other one is still there. *)
Lemma clear_two_pages :
  let run := Bulk.clear docs_listing docs_storage two_objects in
  run.1 = Ok tt
  /\ batches run.2 = [("b", ["docs/a.txt"]); ("b", ["docs/z.txt"])]
  /\ objects (world run.2) !! ("b", "docs/a.txt") = None
  /\ objects (world run.2) !! ("b", "other/b.txt") = Some [].
Proof. repeat split; reflexivity. Qed.

(** clear when the service refuses the request of the first page: the error
    reaches the caller, the page after it is never asked for deletion, and
    the bucket is as it was. *)
Lemma clear_refused_request :
  let run := Bulk.clear z_first_listing docs_storage guarded_objects in
  run.1 = Raise (ClientError "DeleteObjects" "AccessDenied" "Access Denied")
  /\ batches run.2 = [("b", ["docs/z.txt"])]
  /\ objects (world run.2) !! ("b", "docs/a.txt") = Some [].
Proof. repeat split; reflexivity. Qed.
